(** * DataTable: the filter / sort / paginate / select pipeline

    A shallow embedding of [src/Components/DataTable/DataTable.tsx].
    The component keeps four pieces of state ([selectedRows], [sortState],
    [searchQuery], [currentPage]) and derives [filteredData], [sortedData]
    and [paginatedData] from its props on every render.  The derived views
    are pure functions here; the event handlers are a step function that
    returns the next state together with what was passed to [onRowSelect]. *)

From Stdlib Require Import ZArith Lia.
From stdpp Require Import base decidable countable list strings gmap pretty.
From stdpp Require Import sorting.

Local Open Scope Z_scope.

(** ** Values held by a row

    Rows are [Record<string, any>]; the cells the pipeline inspects are
    primitives.  Numbers are the integer-valued ones (ids, counts): there is
    no [NaN] and no fraction among them, and no object or symbol cell. *)

Inductive Value : Type :=
  | VUndefined
  | VNull
  | VBool (b : bool)
  | VNum (n : Z)
  | VStr (s : string).

Global Instance Value_eq_dec : EqDecision Value.
Proof. solve_decision. Defined.

Global Instance Value_countable : Countable Value.
Proof.
  refine (inj_countable'
    (fun v => match v with
              | VUndefined => inl (inl tt)
              | VNull => inl (inr tt)
              | VBool b => inr (inl b)
              | VNum n => inr (inr (inl n))
              | VStr s => inr (inr (inr s))
              end)
    (fun e => match e with
              | inl (inl _) => VUndefined
              | inl (inr _) => VNull
              | inr (inl b) => VBool b
              | inr (inr (inl n)) => VNum n
              | inr (inr (inr s)) => VStr s
              end) _).
  by intros [].
Defined.

(** [v == null] *)
Definition isNullish (v : Value) : bool :=
  match v with
  | VUndefined | VNull => true
  | _ => false
  end.

(** [a ?? b] *)
Definition nullish (a b : Value) : Value :=
  if isNullish a then b else a.


(** [String(v)]; integers are printed with all their digits (the engine
    switches to exponent form from 1e21 on). *)
Definition String_ (v : Value) : string :=
  match v with
  | VUndefined => "undefined"
  | VNull => "null"
  | VBool true => "true"
  | VBool false => "false"
  | VNum n => pretty n
  | VStr s => s
  end.

(** ** Strings: [toLowerCase] and [includes] (ASCII text) *)

Definition lowerChar (c : Ascii.ascii) : Ascii.ascii :=
  let n := Ascii.N_of_ascii c in
  if ((65 <=? n) && (n <=? 90))%N then Ascii.ascii_of_N (n + 32) else c.

Fixpoint toLowerCase (s : string) : string :=
  match s with
  | EmptyString => EmptyString
  | String c s' => String (lowerChar c) (toLowerCase s')
  end.

(** [startsWith s t]: [t] is an initial segment of [s]. *)
Fixpoint startsWith (s t : string) : bool :=
  match t, s with
  | EmptyString, _ => true
  | String _ _, EmptyString => false
  | String b t', String a s' => bool_decide (a = b) && startsWith s' t'
  end.

(** [s.includes(t)] *)
Fixpoint includes (s t : string) : bool :=
  startsWith s t ||
  match s with
  | EmptyString => false
  | String _ s' => includes s' t
  end.

(** ** Rows and columns *)

Definition Row : Type := gmap string Value.

(** [record[field]]; an absent property reads as [undefined]. *)
Definition getField (record : Row) (field : string) : Value :=
  default VUndefined (record !! field).

Record Column : Type := mkColumn {
  key : string;
  title : string;
  dataIndex : string;
  sortable : bool;
  render : option (Value -> Row -> Z -> string)
}.

(** ** Search filter *)

Definition cellMatches (searchQuery : string) (record : Row) (column : Column) : bool :=
  let value := getField record (dataIndex column) in
  includes (toLowerCase (String_ value)) (toLowerCase searchQuery).

Definition rowMatches (columns : list Column) (searchQuery : string) (record : Row) : bool :=
  existsb (cellMatches searchQuery record) columns.

Definition filteredData (data : list Row) (columns : list Column) (searchQuery : string)
  : list Row :=
  if bool_decide (searchQuery = "") then data
  else List.filter (rowMatches columns searchQuery) data.

(** ** What the JavaScript engine supplies

    [String.prototype.localeCompare] and the string-to-number coercion behind
    [<] and [>] are builtins of the host.  The pipeline is defined over any
    engine; [asciiEngine] below is the one used to run the examples. *)

Class Engine : Type := {
  (** [a.localeCompare(b)]: negative, zero or positive *)
  localeCompare : string -> string -> Z;
  (** [Number(s)]; [None] is [NaN] *)
  StringToNumber : string -> option Z
}.

Inductive SortOrder : Type := asc | desc.

Global Instance SortOrder_eq_dec : EqDecision SortOrder.
Proof. solve_decision. Defined.

Record SortState : Type := mkSortState {
  sortKey : option string;
  order : option SortOrder
}.

Global Instance SortState_eq_dec : EqDecision SortState.
Proof. solve_decision. Defined.

(** [rowKey]: a field name or a function of the record; ['id'] by default. *)
Inductive RowKey : Type :=
  | RowKeyField (field : string)
  | RowKeyFn (fn : Row -> Value).

Record Props : Type := mkProps {
  data : list Row;
  columns : list Column;
  onRowSelect : bool;          (* is a callback registered? *)
  pageSize : option Z;
  rowKey : RowKey
}.

Record State : Type := mkState {
  selectedRows : gset Value;
  sortState : SortState;
  searchQuery : string;
  currentPage : Z
}.

Definition initialState : State :=
  {| selectedRows := ∅;
     sortState := {| sortKey := None; order := None |};
     searchQuery := "";
     currentPage := 1 |}.

(** ** [Array.prototype.sort]

    The builtin is a stable sort.  It is modelled as a stable insertion sort
    that puts a later element in front of an earlier one exactly when the
    comparator, asked about (later, earlier), answers with a negative
    number, which is the question V8 asks.  On two elements, and whenever
    the comparator is a consistent order, this is the list every engine
    returns; for an inconsistent comparator on more elements the order is
    the engine's own. *)

Fixpoint sortInsert {A : Type} (cmp : A -> A -> Z) (a : A) (l : list A) : list A :=
  match l with
  | [] => [a]
  | y :: l' => if cmp y a <? 0 then y :: sortInsert cmp a l' else a :: l
  end.

Definition Array_sort {A : Type} (cmp : A -> A -> Z) (l : list A) : list A :=
  foldr (sortInsert cmp) [] l.

(** [Array.prototype.slice(start, end)], with negative positions counted
    from the end and both positions clamped to the array. *)
Definition slice {A : Type} (l : list A) (start end_ : Z) : list A :=
  let len := Z.of_nat (length l) in
  let k := if start <? 0 then Z.max (len + start) 0 else Z.min start len in
  let final := if end_ <? 0 then Z.max (len + end_) 0 else Z.min end_ len in
  take (Z.to_nat (final - k)) (drop (Z.to_nat k) l).

(** [Math.ceil(a / b)] on integers *)
Definition ceilDiv (a b : Z) : Z := - ((- a) / b).

(** [l.filter((item, idx) => f(item, idx))], positions counted from [idx] *)
Fixpoint filterIdx {A : Type} (f : A -> Z -> bool) (l : list A) (idx : Z) : list A :=
  match l with
  | [] => []
  | x :: l' =>
      if f x idx then x :: filterIdx f l' (idx + 1) else filterIdx f l' (idx + 1)
  end.

(** [l.map((item, idx) => f(item, idx))], positions counted from [idx] *)
Fixpoint mapIdx {A B : Type} (f : A -> Z -> B) (l : list A) (idx : Z) : list B :=
  match l with
  | [] => []
  | x :: l' => f x idx :: mapIdx f l' (idx + 1)
  end.

(** [pageSize] as a condition: [undefined] and [0] are falsy *)
Definition truthyPageSize (pageSize : option Z) : option Z :=
  match pageSize with
  | Some ps => if ps =? 0 then None else Some ps
  | None => None
  end.

Section Pipeline.
Context `{Engine}.

(** ** Relational comparison [a < b] (both operands primitive) *)

Definition ToNumber (v : Value) : option Z :=
  match v with
  | VUndefined => None
  | VNull => Some 0
  | VBool true => Some 1
  | VBool false => Some 0
  | VNum n => Some n
  | VStr s => StringToNumber s
  end.

Definition jsLt (a b : Value) : bool :=
  match a, b with
  | VStr s, VStr t => String.ltb s t
  | _, _ =>
      match ToNumber a, ToNumber b with
      | Some x, Some y => x <? y
      | _, _ => false
      end
  end.

(** ** Sort stage *)

(** The comparator handed to [sort] in [sortedData]. *)
Definition compareValues (o : SortOrder) (aVal bVal : Value) : Z :=
  if isNullish aVal then (if decide (o = asc) then -1 else 1)
  else if isNullish bVal then (if decide (o = asc) then 1 else -1)
  else
    match aVal, bVal with
    | VStr s, VStr t =>
        let comparison := localeCompare s t in
        if decide (o = asc) then comparison else - comparison
    | _, _ =>
        if jsLt aVal bVal then (if decide (o = asc) then -1 else 1)
        else if jsLt bVal aVal then (if decide (o = asc) then 1 else -1)
        else 0
    end.

Definition compareRows (o : SortOrder) (column : Column) (a b : Row) : Z :=
  compareValues o (getField a (dataIndex column)) (getField b (dataIndex column)).

Definition sortedData (filteredData : list Row) (sortState : SortState)
    (columns : list Column) : list Row :=
  match sortKey sortState, order sortState with
  | Some k, Some o =>
      if bool_decide (k = "") then filteredData
      else
        match List.find (fun col => bool_decide (key col = k)) columns with
        | None => filteredData
        | Some column => Array_sort (compareRows o column) filteredData
        end
  | _, _ => filteredData
  end.

(** ** Pagination *)

Definition paginatedData (sortedData : list Row) (currentPage : Z)
    (pageSize : option Z) : list Row :=
  match truthyPageSize pageSize with
  | None => sortedData
  | Some ps =>
      let startIndex := (currentPage - 1) * ps in
      slice sortedData startIndex (startIndex + ps)
  end.

Definition totalPages (sortedData : list Row) (pageSize : option Z) : Z :=
  match truthyPageSize pageSize with
  | Some ps => ceilDiv (Z.of_nat (length sortedData)) ps
  | None => 1
  end.

(** ** The derived views of one render *)

Definition filteredView (p : Props) (s : State) : list Row :=
  filteredData (data p) (columns p) (searchQuery s).

Definition sortedView (p : Props) (s : State) : list Row :=
  sortedData (filteredView p s) (sortState s) (columns p).

Definition paginatedView (p : Props) (s : State) : list Row :=
  paginatedData (sortedView p s) (currentPage s) (pageSize p).

(** ** Selection *)

Definition getRowKey (rowKey : RowKey) (record : Row) (index : Z) : Value :=
  match rowKey with
  | RowKeyFn fn => fn record
  | RowKeyField field => nullish (getField record field) (VNum index)
  end.

(** [String(record[column.dataIndex] ?? '')], or the column's own renderer *)
Definition cellText (column : Column) (record : Row) (index : Z) : string :=
  match render column with
  | Some r => r (getField record (dataIndex column)) record index
  | None => String_ (nullish (getField record (dataIndex column)) (VStr ""))
  end.

Definition nextSortState (column : Column) (prev : SortState) : SortState :=
  if bool_decide (sortKey prev ≠ Some (key column)) then
    {| sortKey := Some (key column); order := Some asc |}
  else if bool_decide (order prev = Some asc) then
    {| sortKey := Some (key column); order := Some desc |}
  else {| sortKey := None; order := None |}.

Definition handleSort (column : Column) (s : State) : State :=
  if negb (sortable column) then s
  else
    {| selectedRows := selectedRows s;
       sortState := nextSortState column (sortState s);
       searchQuery := searchQuery s;
       currentPage := currentPage s |}.

Definition setSelectedRows (sel : gset Value) (s : State) : State :=
  {| selectedRows := sel;
     sortState := sortState s;
     searchQuery := searchQuery s;
     currentPage := currentPage s |}.

Definition setSearchQuery (q : string) (s : State) : State :=
  {| selectedRows := selectedRows s;
     sortState := sortState s;
     searchQuery := q;
     currentPage := currentPage s |}.

Definition setCurrentPage (page : Z) (s : State) : State :=
  {| selectedRows := selectedRows s;
     sortState := sortState s;
     searchQuery := searchQuery s;
     currentPage := page |}.

(** What a handler passed to [onRowSelect], if a callback is registered. *)
Definition emit (p : Props) (rows : list Row) : option (list Row) :=
  if onRowSelect p then Some rows else None.

Definition handleRowSelect (p : Props) (s : State)
    (record : Row) (checked : bool) (index : Z) : State * option (list Row) :=
  let key := getRowKey (rowKey p) record index in
  let newSelected : gset Value :=
    if checked then selectedRows s ∪ {[ key ]} else selectedRows s ∖ {[ key ]} in
  let selectedData :=
    filterIdx (fun item idx => bool_decide (getRowKey (rowKey p) item idx ∈ newSelected))
              (data p) 0 in
  (setSelectedRows newSelected s, emit p selectedData).

Definition handleSelectAll (p : Props) (s : State) (checked : bool)
    : State * option (list Row) :=
  if checked then
    let allKeys : gset Value :=
      list_to_set (mapIdx (getRowKey (rowKey p)) (paginatedView p s) 0) in
    (setSelectedRows allKeys s, emit p (paginatedView p s))
  else (setSelectedRows ∅ s, emit p []).

Definition clearSelection (p : Props) (s : State) : State * option (list Row) :=
  (setSelectedRows ∅ s, emit p []).

Definition isAllSelected (p : Props) (s : State) : bool :=
  bool_decide (0 < length (paginatedView p s))%nat &&
  forallb (fun b : bool => b)
    (mapIdx (fun record index =>
               bool_decide (getRowKey (rowKey p) record index ∈ selectedRows s))
            (paginatedView p s) 0).

(** ** User events

    One event per control of the rendered table; [step] runs the handler
    bound to it.  Whether the control is on screen (the pagination bar needs
    more than one page, the checkboxes need [selectable]) is left to the
    caller. *)

Inductive Event : Type :=
  | TypeSearch (q : string)                       (* search box [onChange] *)
  | ClickHeader (column : Column)                 (* column header [onClick] *)
  | ClickPrevious                                 (* "Previous" *)
  | ClickPage (page : Z)                          (* a numbered page button *)
  | ClickNext                                     (* "Next" *)
  | ToggleRow (record : Row) (checked : bool) (index : Z)
  | ToggleAll (checked : bool)
  | ClickClear.                                   (* "Clear selection" *)

Definition step (p : Props) (s : State) (e : Event) : State * option (list Row) :=
  match e with
  | TypeSearch q => (setSearchQuery q s, None)
  | ClickHeader column => (handleSort column s, None)
  | ClickPrevious => (setCurrentPage (Z.max (currentPage s - 1) 1) s, None)
  | ClickPage page => (setCurrentPage page s, None)
  | ClickNext =>
      (setCurrentPage (Z.min (currentPage s + 1) (totalPages (sortedView p s) (pageSize p))) s,
       None)
  | ToggleRow record checked index => handleRowSelect p s record checked index
  | ToggleAll checked => handleSelectAll p s checked
  | ClickClear => clearSelection p s
  end.

(** Run a sequence of events; the state after the last one. *)
Definition run (p : Props) (s : State) (es : list Event) : State :=
  foldl (fun st e => fst (step p st e)) s es.

End Pipeline.

(** ** An engine for ASCII words and integer literals

    [localeCompare] orders words of letters alphabetically without regard
    to case and, between words that differ only in case, puts the lower-case
    letter first.  [Number(s)] is an integer for the strings that are blank
    or an optionally signed run of decimal digits, white space around them
    allowed, and [NaN] for text that spells no number.  Strings that spell a
    number in another notation (a fraction, an exponent, hexadecimal,
    [Infinity]) have no place among integer-valued cells; this engine
    answers [NaN] for them and the samples use none. *)

Definition asciiLocaleCompare (a b : string) : Z :=
  match String.compare (toLowerCase a) (toLowerCase b) with
  | Lt => -1
  | Gt => 1
  | Eq =>
      match String.compare a b with
      | Lt => 1
      | Gt => -1
      | Eq => 0
      end
  end.

Definition isWhiteSpace (c : Ascii.ascii) : bool :=
  let n := Ascii.N_of_ascii c in
  ((n =? 32) || ((9 <=? n) && (n <=? 13)))%N.

Fixpoint trimStart (s : string) : string :=
  match s with
  | EmptyString => EmptyString
  | String c s' => if isWhiteSpace c then trimStart s' else s
  end.

Fixpoint trimEnd (s : string) : string :=
  match s with
  | EmptyString => EmptyString
  | String c s' =>
      let r := trimEnd s' in
      if isWhiteSpace c && bool_decide (r = "") then "" else String c r
  end.

Fixpoint digitsValue (s : string) (acc : Z) : option Z :=
  match s with
  | EmptyString => Some acc
  | String c s' =>
      let n := Ascii.N_of_ascii c in
      if ((48 <=? n) && (n <=? 57))%N
      then digitsValue s' (acc * 10 + (Z.of_N n - 48))
      else None
  end.

Definition signedDigits (s : string) : option Z :=
  match s with
  | EmptyString => Some 0
  | String c s' =>
      if (Ascii.N_of_ascii c =? 43)%N then
        (if bool_decide (s' = "") then None else digitsValue s' 0)
      else if (Ascii.N_of_ascii c =? 45)%N then
        (if bool_decide (s' = "") then None else Z.opp <$> digitsValue s' 0)
      else digitsValue s 0
  end.

Definition asciiStringToNumber (s : string) : option Z :=
  signedDigits (trimEnd (trimStart s)).

Global Instance asciiEngine : Engine :=
  {| localeCompare := asciiLocaleCompare;
     StringToNumber := asciiStringToNumber |}.

(** ** Sample tables *)

Definition nameColumn : Column :=
  {| key := "name"; title := "Name"; dataIndex := "name";
     sortable := true; render := None |}.

Definition roleColumn : Column :=
  {| key := "role"; title := "Role"; dataIndex := "role";
     sortable := false; render := None |}.

Definition person (id : Z) (name : string) : Row :=
  {[ "id" := VNum id; "name" := VStr name ]}.

Definition bob : Row := person 1 "Bob".
Definition amy : Row := person 2 "Amy".
Definition cal : Row := person 3 "Cal".

Definition peopleProps : Props :=
  {| data := [bob; amy; cal];
     columns := [nameColumn];
     onRowSelect := true;
     pageSize := None;
     rowKey := RowKeyField "id" |}.

(** Ten rows with ids 1..10, three to a page. *)
Definition tenRows : list Row :=
  (fun i => person (Z.of_nat i) ("row" +:+ pretty i)) <$> seq 1 10.

Definition tenProps : Props :=
  {| data := tenRows;
     columns := [nameColumn];
     onRowSelect := true;
     pageSize := Some 3;
     rowKey := RowKeyField "id" |}.

(** ** Vocabulary of the statements and further samples *)

(** [t] occurs in [s] as a contiguous run of characters. *)
Definition isSubstring (t s : string) : Prop :=
  ∃ pre post : string, s = pre +:+ t +:+ post.

(** A row matches when at least one column's value, converted to text and
    lower-cased, contains the lower-cased query. *)
Definition Matches (columns : list Column) (q : string) (record : Row) : Prop :=
  ∃ column : Column,
    column ∈ columns ∧
    isSubstring (toLowerCase q)
                (toLowerCase (String_ (getField record (dataIndex column)))).

Definition ghost : Row := {[ "id" := VNum 9 ]}.

(** The pages [1 .. n], as the page buttons number them. *)
Definition pagesUpTo (n : Z) : list Z := Z.of_nat <$> seq 1 (Z.to_nat n).

(** The state reached by "select all" on page 1, a click on page 2 and
    "select all" again, on the ten-row table. *)
Definition afterTwoSelectAlls : State :=
  run tenProps initialState [ToggleAll true; ClickPage 2; ToggleAll true].

(** The table sorted by name, ascending. *)
Definition peopleByName : State :=
  run peopleProps initialState [ClickHeader nameColumn].

(** The events that change the query, the sort state or the page. *)
Definition isViewChange (e : Event) : bool :=
  match e with
  | TypeSearch _ | ClickHeader _ | ClickPrevious | ClickPage _ | ClickNext => true
  | ToggleRow _ _ _ | ToggleAll _ | ClickClear => false
  end.

Definition unsorted : SortState := {| sortKey := None; order := None |}.

Definition sortedBy (column : Column) (o : SortOrder) : SortState :=
  {| sortKey := Some (key column); order := Some o |}.

(** The names shown after a sequence of events on the three-person table. *)
Definition namesAfter (es : list Event) : list Value :=
  (fun record => getField record "name")
    <$> paginatedView peopleProps (run peopleProps initialState es).

(** A row with a given id and a given value in the [name] cell. *)
Definition cell (id : Z) (v : Value) : Row :=
  {[ "id" := VNum id; "name" := v ]}.

Definition byNameAscending : SortState := sortedBy nameColumn asc.


Definition nobody1 : Row := cell 1 VNull.
Definition nobody2 : Row := cell 2 VNull.

(** Text made of ASCII characters only (codes below 128), on which
    [toLowerCase] is the lower-casing of the engine. *)
Fixpoint asciiOnly (s : string) : bool :=
  match s with
  | EmptyString => true
  | String c s' => (Ascii.N_of_ascii c <? 128)%N && asciiOnly s'
  end.

(** ** The rest of the table: header checkbox, pagination bar *)

(** [isIndeterminate] *)
Definition isIndeterminate `{Engine} (p : Props) (s : State) : bool :=
  bool_decide (0 < size (selectedRows s))%nat && negb (isAllSelected p s).

(** [startItem] and [endItem] of "Showing a to b of n results" *)
Definition startItem (currentPage : Z) (pageSize : option Z) : Z :=
  match truthyPageSize pageSize with
  | Some ps => (currentPage - 1) * ps + 1
  | None => 1
  end.

Definition endItem (sortedData : list Row) (currentPage : Z) (pageSize : option Z) : Z :=
  match truthyPageSize pageSize with
  | Some ps => Z.min (currentPage * ps) (Z.of_nat (length sortedData))
  | None => Z.of_nat (length sortedData)
  end.

(** The pagination bar is rendered when [pageSize && totalPages > 1]. *)
Definition paginationShown (sortedData : list Row) (pageSize : option Z) : bool :=
  match truthyPageSize pageSize with
  | Some _ => bool_decide (1 < totalPages sortedData pageSize)
  | None => false
  end.

(** The numbered buttons:
    [Array.from({ length: Math.min(totalPages, 5) }, (_, i) => i + 1)]. *)
Definition pageButtons (totalPages : Z) : list Z :=
  (fun i : nat => Z.of_nat i + 1) <$> seq 0 (Z.to_nat (Z.min totalPages 5)).

(** The page events the rendered bar can fire in state [s]. *)
Definition navigationOffered `{Engine} (p : Props) (s : State) (e : Event) : bool :=
  paginationShown (sortedView p s) (pageSize p) &&
  match e with
  | ClickPrevious | ClickNext => true
  | ClickPage page =>
      bool_decide (page ∈ pageButtons (totalPages (sortedView p s) (pageSize p)))
  | _ => false
  end.

(** A row that carries a name and no id. *)
Definition anonymous (name : string) : Row := {[ "name" := VStr name ]}.

Definition anonymousProps : Props :=
  {| data := anonymous <$> ["Ann"; "Ben"; "Cy"; "Dee"; "Eve"];
     columns := [nameColumn];
     onRowSelect := true;
     pageSize := Some 3;
     rowKey := RowKeyField "id" |}.

(** A row with a number in the [name] cell. *)
Definition scored (id n : Z) : Row := cell id (VNum n).

(** The two cells hold numbers, the first at most the second. *)
Definition numbersAscend (column : Column) (a b : Row) : Prop :=
  ∃ x y : Z,
    getField a (dataIndex column) = VNum x ∧
    getField b (dataIndex column) = VNum y ∧ x ≤ y.

(** * InputField

    The derived values and handlers of
    [src/Components/InputField/InputField.tsx].  Optional string props are
    [option string]; an icon prop is a flag telling whether a node was
    passed. *)

Module InputField.

Inductive Variant : Type := filled | outlined | ghost.
Inductive Size : Type := sm | md | lg.
Inductive InputType : Type := text | email | password | number | tel | url | search.

Global Instance InputType_eq_dec : EqDecision InputType.
Proof. solve_decision. Defined.

Record Props : Type := mkProps {
  value : string;
  onChange : bool;              (* is a handler registered? *)
  helperText : option string;
  errorMessage : option string;
  disabled : bool;
  invalid : bool;
  loading : bool;
  variant : Variant;
  size : Size;
  type : InputType;
  showClearButton : bool;
  id : option string;
  leftIcon : bool;
  rightIcon : bool
}.

(** A string prop used as a condition: [undefined] and [''] are falsy. *)
Definition truthy (o : option string) : bool :=
  match o with
  | Some s => negb (bool_decide (s = ""))
  | None => false
  end.

Definition isPassword (p : Props) : bool := bool_decide (type p = password).

(** [inputType = isPassword && showPassword ? 'text' : type] *)
Definition inputType (p : Props) (showPassword : bool) : InputType :=
  if isPassword p && showPassword then text else type p.

Definition hasError (p : Props) : bool := invalid p || truthy (errorMessage p).

Definition hasValue (p : Props) : bool := negb (bool_decide (value p = "")).

Definition hasLeftIcon (p : Props) : bool := leftIcon p.

(** [getPaddingClasses] *)
Definition leftPadding (sz : Size) : string :=
  match sz with sm => "pl-10" | lg => "pl-12" | md => "pl-11" end.

Definition rightPadding (sz : Size) : string :=
  match sz with sm => " pr-10" | lg => " pr-12" | md => " pr-11" end.

Definition getPaddingClasses (p : Props) : string :=
  let padding := if hasLeftIcon p then leftPadding (size p) else "" in
  if isPassword p || showClearButton p || loading p || rightIcon p
  then padding +:+ rightPadding (size p)
  else padding.

(** The input element is [disabled={disabled || loading}]. *)
Definition inputDisabled (p : Props) : bool := disabled p || loading p.

(** [aria-describedby] of the input element *)
Definition ariaDescribedby (p : Props) : option string :=
  if truthy (id p) then
    if hasError p then Some (default "" (id p) +:+ "-error")
    else if truthy (helperText p) then Some (default "" (id p) +:+ "-helper")
    else None
  else None.

(** The message line below the input: rendered when
    [helperText || errorMessage]; its [id]; its text. *)
Definition messageRendered (p : Props) : bool :=
  truthy (helperText p) || truthy (errorMessage p).

Definition messageId (p : Props) : option string :=
  if hasError p && truthy (id p) then Some (default "" (id p) +:+ "-error")
  else if truthy (id p) && truthy (helperText p)
       then Some (default "" (id p) +:+ "-helper")
  else None.

Definition messageText (p : Props) : option string :=
  if truthy (errorMessage p) then errorMessage p else helperText p.

(** The controls at the right edge, in the order they are rendered. *)
Inductive Control : Type := CustomIcon | Spinner | ClearButton | PasswordToggle.

Global Instance Control_eq_dec : EqDecision Control.
Proof. solve_decision. Defined.

Definition rightControls (p : Props) : list Control :=
  (if rightIcon p && negb (loading p) then [CustomIcon] else []) ++
  (if loading p then [Spinner] else []) ++
  (if negb (loading p) && showClearButton p && hasValue p && negb (disabled p)
   then [ClearButton] else []) ++
  (if negb (loading p) && isPassword p then [PasswordToggle] else []).

(** [handleClear]: the value handed to [onChange], if there is a handler. *)
Definition handleClear (p : Props) : option string :=
  if onChange p then Some "" else None.

(** [togglePasswordVisibility] *)
Definition togglePasswordVisibility (showPassword : bool) : bool := negb showPassword.

(** A parent that stores what [onChange] reports, as
    [onChange={(e) => setEmail(e.target.value)}] in [App.tsx]. *)
Definition controlledBy (p : Props) (reported : option string) : Props :=
  match reported with
  | Some v =>
      {| value := v; onChange := onChange p; helperText := helperText p;
         errorMessage := errorMessage p; disabled := disabled p;
         invalid := invalid p; loading := loading p; variant := variant p;
         size := size p; type := type p; showClearButton := showClearButton p;
         id := id p; leftIcon := leftIcon p; rightIcon := rightIcon p |}
  | None => p
  end.

(** A mail field flagged invalid without any message, and the same field
    with an error message. *)
Definition sample : Props :=
  {| value := "hello"; onChange := true; helperText := None;
     errorMessage := None; disabled := false; invalid := true;
     loading := false; variant := outlined; size := md; type := email;
     showClearButton := true; id := Some "mail"; leftIcon := false;
     rightIcon := false |}.

Definition sampleWithMessage : Props :=
  {| value := "hello"; onChange := true; helperText := Some "Your address";
     errorMessage := Some "Not an address"; disabled := false; invalid := false;
     loading := false; variant := outlined; size := md; type := email;
     showClearButton := true; id := Some "mail"; leftIcon := false;
     rightIcon := false |}.

Definition secret : Props :=
  {| value := "hunter2"; onChange := true; helperText := None;
     errorMessage := None; disabled := false; invalid := false;
     loading := true; variant := filled; size := lg; type := password;
     showClearButton := true; id := None; leftIcon := true;
     rightIcon := true |}.

End InputField.

(** * The sign-up form of the InputField stories ([AllFeatures])

    [values] is the object with the fields [name], [email], [password] and
    [search]; [errors] holds the two validation flags. *)

Module SignupForm.

Record Errors : Type := mkErrors { email : bool; password : bool }.

Record Form : Type := mkForm {
  values : gmap string string;
  errors : Errors
}.

Definition initial : Form :=
  {| values := {[ "name" := ""; "email" := ""; "password" := "";
                  "search" := "Sample search query" ]};
     errors := {| email := false; password := false |} |}.

(** [values.field] used as text; a missing field reads as empty here, the
    form never removes one. *)
Definition valueOf (f : Form) (field : string) : string :=
  default "" (values f !! field).

(** [handleChange(field)(e)] with [e.target.value = v] *)
Definition handleChange (field : string) (v : string) (f : Form) : Form :=
  let values' := <[ field := v ]> (values f) in
  let errors1 :=
    if bool_decide (field = "email") then
      {| email := bool_decide (0 < String.length v)%nat && negb (includes v "@");
         password := password (errors f) |}
    else errors f in
  let errors2 :=
    if bool_decide (field = "password") then
      {| email := email errors1;
         password := bool_decide (0 < String.length v)%nat
                     && bool_decide (String.length v < 6)%nat |}
    else errors1 in
  {| values := values'; errors := errors2 |}.

(** [disabled] of the "Create Account" button *)
Definition submitDisabled (f : Form) : bool :=
  bool_decide (valueOf f "name" = "") ||
  bool_decide (valueOf f "email" = "") ||
  bool_decide (valueOf f "password" = "") ||
  email (errors f) || password (errors f).

(** The form after a sequence of edits, each a field and the text typed. *)
Definition edit (f : Form) (changes : list (string * string)) : Form :=
  foldl (fun st c => handleChange c.1 c.2 st) f changes.

End SignupForm.

(** The two error flags say what the last text of their field looks like. *)
Definition flagsMatchValues (f : SignupForm.Form) : Prop :=
  SignupForm.email (SignupForm.errors f)
    = bool_decide (0 < String.length (SignupForm.valueOf f "email"))%nat
      && negb (includes (SignupForm.valueOf f "email") "@") ∧
  SignupForm.password (SignupForm.errors f)
    = bool_decide (0 < String.length (SignupForm.valueOf f "password"))%nat
      && bool_decide (String.length (SignupForm.valueOf f "password") < 6)%nat.

(** * Properties *)

(** ** Substrings *)

Lemma startsWith_spec (s t : string) :
  startsWith s t = true ↔ ∃ post : string, s = t +:+ post.
Proof.
  revert s. induction t as [|b t IH]; intros s; simpl.
  - split; [intros _; by exists s | intros _; by destruct s].
  - destruct s as [|a s]; simpl.
    + split; [done | intros [post Hp]; discriminate].
    + rewrite andb_true_iff, bool_decide_eq_true, IH. split.
      * intros [-> [post ->]]. by exists post.
      * intros [post Hp]. injection Hp as -> ->. eauto.
Qed.

Lemma includes_spec (s t : string) :
  includes s t = true ↔ isSubstring t s.
Proof.
  unfold isSubstring. induction s as [|a s IH].
  - cbn [includes]. rewrite orb_false_r, startsWith_spec. split.
    + intros [post Hp]. by exists "", post.
    + intros [pre [post Hp]]. destruct pre; [by exists post | discriminate].
  - cbn [includes]. rewrite orb_true_iff, startsWith_spec, IH. split.
    + intros [[post Hp] | [pre [post Hp]]].
      * by exists "", post.
      * exists (String a pre), post. simpl. by rewrite Hp.
    + intros [pre [post Hp]]. destruct pre as [|c pre]; simpl in Hp.
      * left. by exists post.
      * right. injection Hp as -> ->. eauto.
Qed.

Lemma includes_empty (s : string) : includes s "" = true.
Proof. by destruct s. Qed.

(** ** Search filter *)

Lemma rowMatches_spec (columns : list Column) (q : string) (record : Row) :
  rowMatches columns q record = true ↔ Matches columns q record.
Proof.
  unfold rowMatches, Matches. rewrite existsb_exists. split.
  - intros [column [Hin Hm]]. exists column. split.
    + by apply list_elem_of_In.
    + by apply includes_spec.
  - intros [column [Hin Hm]]. exists column. split.
    + by apply list_elem_of_In.
    + by apply includes_spec.
Qed.

Lemma filter_all_true {A : Type} (f : A -> bool) (l : list A) :
  (∀ x, f x = true) → List.filter f l = l.
Proof.
  intros Hf. induction l as [|x l IH]; simpl; [done|]. by rewrite Hf, IH.
Qed.

Lemma filter_sublist {A : Type} (f : A -> bool) (l : list A) :
  sublist (List.filter f l) l.
Proof.
  induction l as [|x l IH]; simpl; [constructor|].
  destruct (f x); by constructor.
Qed.

Lemma filteredData_filter (D : list Row) (columns : list Column) (q : string) :
  q ≠ "" ∨ columns ≠ [] →
  filteredData D columns q = List.filter (rowMatches columns q) D.
Proof.
  unfold filteredData. case_bool_decide as Hq; [|done].
  intros [Hne | Hcols]; [done|]. subst q.
  symmetry. apply filter_all_true. intros record.
  destruct columns as [|c cs]; [done|]. simpl.
  unfold cellMatches. simpl. by rewrite includes_empty.
Qed.

Lemma filteredData_complete (D : list Row) (columns : list Column) (q : string)
    (record : Row) :
  record ∈ D → Matches columns q record → record ∈ filteredData D columns q.
Proof.
  intros Hin Hm. unfold filteredData.
  case_bool_decide as Hq; [done|].
  apply list_elem_of_In, filter_In. split; [by apply list_elem_of_In|].
  by apply rowMatches_spec.
Qed.

(** With the empty query and no column at all the input comes back whole,
    although no row has a column that matches. *)
Lemma empty_query_without_columns :
  filteredData [bob] [] "" = [bob] ∧
  List.filter (rowMatches [] "") [bob] = [] ∧
  ¬ Matches [] "" bob.
Proof.
  split_and!; [reflexivity | reflexivity |].
  intros (column & Hin & _). by apply elem_of_nil in Hin.
Qed.

(** C2 (amended). For every non-empty query, and for the empty query as
    soon as there is a column, the search filter keeps, in input order,
    exactly the rows that match the query in at least one column (the value
    turned into text and lower-cased contains the lower-cased query).  For
    the empty query it hands back the input itself, columns or not. *)
Theorem filteredData_correct (D : list Row) (columns : list Column) (q : string) :
  filteredData D columns "" = D ∧
  (q ≠ "" ∨ columns ≠ [] →
     filteredData D columns q = List.filter (rowMatches columns q) D) ∧
  (∀ record, rowMatches columns q record = true ↔ Matches columns q record) ∧
  sublist (filteredData D columns q) D ∧
  (∀ record, record ∈ filteredData D columns q →
     record ∈ D ∧ (q ≠ "" → Matches columns q record)) ∧
  (∀ record, record ∈ D → Matches columns q record →
     record ∈ filteredData D columns q).
Proof.
  split_and!.
  - done.
  - apply filteredData_filter.
  - intros record. apply rowMatches_spec.
  - unfold filteredData. case_bool_decide; [done | apply filter_sublist].
  - intros record Hin. unfold filteredData in Hin.
    case_bool_decide as Hq; [done|].
    apply list_elem_of_In, filter_In in Hin as [Hin Hm].
    split; [by apply list_elem_of_In | intros _; by apply rowMatches_spec].
  - intros record. apply filteredData_complete.
Qed.

Lemma filteredData_correct_witness :
  filteredData [bob; amy; cal] [nameColumn] "AM" = [amy].
Proof.
  destruct (filteredData_correct [bob; amy; cal] [nameColumn] "AM")
    as (_ & Hfilter & _).
  rewrite Hfilter; [reflexivity | left; discriminate].
Defined.

(** C10. A cell holding [undefined] or [null] is searched as the text
    "undefined" or "null".  The cell matches a query exactly when the
    lower-cased query occurs in that text, so every row with such a cell in
    a listed column is returned for such a query ("undef" for an
    [undefined] cell, "null" for a [null] one); a row whose listed cells all
    hold that value is returned for a non-empty query only then.  The plain
    cell renderer shows the empty string for the cell. *)
Theorem nullish_cell_is_searchable
    (D : list Row) (columns : list Column) (record : Row)
    (column : Column) (index : Z)
    (Hrow : record ∈ D) (Hcol : column ∈ columns)
    (Hval : isNullish (getField record (dataIndex column)) = true) :
  (String_ (getField record (dataIndex column)) = "undefined" ∨
   String_ (getField record (dataIndex column)) = "null") ∧
  (∀ q, isSubstring (toLowerCase q) (String_ (getField record (dataIndex column))) →
        record ∈ filteredData D columns q) ∧
  (getField record (dataIndex column) = VUndefined →
        record ∈ filteredData D columns "undef") ∧
  (getField record (dataIndex column) = VNull →
        record ∈ filteredData D columns "null") ∧
  (render column = None → cellText column record index = "") ∧
  (getField record (dataIndex column) = VUndefined →
     ∀ q, cellMatches q record column = true ↔
          isSubstring (toLowerCase q) "undefined") ∧
  (getField record (dataIndex column) = VNull →
     ∀ q, cellMatches q record column = true ↔
          isSubstring (toLowerCase q) "null") ∧
  (∀ q, q ≠ "" →
     (∀ c, c ∈ columns →
           getField record (dataIndex c) = getField record (dataIndex column)) →
     (record ∈ filteredData D columns q ↔
      isSubstring (toLowerCase q) (String_ (getField record (dataIndex column))))).
Proof.
  assert (Hlow : toLowerCase (String_ (getField record (dataIndex column)))
                 = String_ (getField record (dataIndex column))).
  { destruct (getField record (dataIndex column)); try discriminate; reflexivity. }
  assert (Hq : ∀ q,
    isSubstring (toLowerCase q) (String_ (getField record (dataIndex column))) →
    record ∈ filteredData D columns q).
  { intros q Hsub. apply filteredData_complete; [done|].
    exists column. split; [done|]. by rewrite Hlow. }
  assert (Hcell : ∀ q, cellMatches q record column = true ↔
    isSubstring (toLowerCase q) (String_ (getField record (dataIndex column)))).
  { intros q. unfold cellMatches. cbv zeta. rewrite Hlow. apply includes_spec. }
  split_and!.
  - destruct (getField record (dataIndex column)); try discriminate; auto.
  - done.
  - intros Hu. apply Hq. rewrite Hu. by exists "", "ined".
  - intros Hn. apply Hq. rewrite Hn. by exists "", "".
  - intros Hr. unfold cellText. rewrite Hr.
    destruct (getField record (dataIndex column)); try discriminate; reflexivity.
  - intros Hu q. rewrite Hcell. by rewrite Hu.
  - intros Hn q. rewrite Hcell. by rewrite Hn.
  - intros q Hne Hsame. split; [|apply Hq].
    intros Hin. unfold filteredData in Hin.
    rewrite bool_decide_eq_false_2 in Hin by done.
    apply list_elem_of_In, filter_In in Hin as [_ Hm].
    apply rowMatches_spec in Hm as (c & Hc & Hsub).
    by rewrite (Hsame c Hc), Hlow in Hsub.
Qed.

Lemma nullish_cell_is_searchable_witness :
  ghost ∈ filteredData [bob; ghost] [nameColumn] "undef" ∧
  cellText nameColumn ghost 1 = "" ∧
  cellMatches "Fine" ghost nameColumn = true ∧
  cellMatches "bob" ghost nameColumn = false ∧
  ghost ∉ filteredData [bob; ghost] [nameColumn] "bob".
Proof.
  assert (Hrow : ghost ∈ [bob; ghost]) by (apply list_elem_of_In; simpl; auto).
  assert (Hcol : nameColumn ∈ [nameColumn]) by (apply list_elem_of_In; simpl; auto).
  destruct (nullish_cell_is_searchable [bob; ghost] [nameColumn] ghost nameColumn 1
              Hrow Hcol eq_refl) as (_ & _ & Hu & _ & Hcell & Hundef & _ & Honly).
  assert (Hno : ¬ isSubstring (toLowerCase "bob") "undefined").
  { intros Hsub. apply includes_spec in Hsub. by vm_compute in Hsub. }
  split_and!.
  - apply Hu; reflexivity.
  - apply Hcell; reflexivity.
  - apply (Hundef eq_refl). by exists "unde", "d".
  - apply not_true_is_false. intros Hm. by apply (Hundef eq_refl) in Hm.
  - intros Hin. apply Hno. apply (Honly "bob"); [discriminate | | done].
    intros c Hc. apply list_elem_of_In in Hc. simpl in Hc.
    by destruct Hc as [<- | []].
Defined.

(** ** Pagination *)

Lemma ceilDiv_bounds (a b : Z) :
  0 < b → (ceilDiv a b - 1) * b < a ≤ ceilDiv a b * b.
Proof.
  intros Hb. unfold ceilDiv.
  pose proof (Z.div_mod (- a) b ltac:(lia)) as Hdm.
  pose proof (Z.mod_pos_bound (- a) b Hb) as Hm.
  nia.
Qed.

Lemma ceilDiv_unique (a b n : Z) :
  0 < b → (n - 1) * b < a ≤ n * b → ceilDiv a b = n.
Proof.
  intros Hb Hn. pose proof (ceilDiv_bounds a b Hb). nia.
Qed.

Lemma totalPages_bounds (sorted : list Row) (ps : Z) :
  0 < ps →
  (totalPages sorted (Some ps) - 1) * ps < Z.of_nat (length sorted)
    ≤ totalPages sorted (Some ps) * ps.
Proof.
  intros Hps. unfold totalPages, truthyPageSize.
  destruct (Z.eqb_spec ps 0) as [?|_]; [lia|]. by apply ceilDiv_bounds.
Qed.

(** An empty collection has no page: the count is 0, not 1. *)
Lemma totalPages_empty_is_zero :
  totalPages (@nil Row) (Some 3) = 0 ∧
  totalPages (@nil Row) (Some 3)
    ≠ Z.max 1 (ceilDiv (Z.of_nat (length (@nil Row))) 3).
Proof. split; [reflexivity | discriminate]. Qed.

(** C4 (amended). With a page size [ps > 0] the page count is the ceiling of
    [length / ps]: the least [n] with [length ≤ n * ps].  It is [0] for an
    empty collection and at least [1] otherwise; without a page size it is
    [1]; seven rows at three to a page make three pages. *)
Theorem totalPages_is_ceiling
    (sorted : list Row) (ps : Z) (Hps : 0 < ps) :
  let len := Z.of_nat (length sorted) in
  (totalPages sorted (Some ps) - 1) * ps < len ≤ totalPages sorted (Some ps) * ps ∧
  totalPages sorted (Some ps) = (len + ps - 1) / ps ∧
  (sorted = [] → totalPages sorted (Some ps) = 0) ∧
  (sorted ≠ [] → 1 ≤ totalPages sorted (Some ps)) ∧
  totalPages sorted None = 1 ∧
  totalPages (take 7 tenRows) (Some 3) = 3.
Proof.
  intros len. unfold totalPages, truthyPageSize.
  destruct (Z.eqb_spec ps 0) as [?|_]; [lia|]. fold len.
  pose proof (ceilDiv_bounds len ps Hps) as Hb.
  split_and!.
  - apply Hb.
  - apply Hb.
  - apply ceilDiv_unique; [done|].
    pose proof (Z.div_mod (len + ps - 1) ps ltac:(lia)).
    pose proof (Z.mod_pos_bound (len + ps - 1) ps Hps). nia.
  - intros ->. subst len. simpl in *. nia.
  - intros Hne. assert (0 < len) by (subst len; destruct sorted; simpl; [done | lia]).
    nia.
  - reflexivity.
  - reflexivity.
Qed.

Lemma totalPages_is_ceiling_witness :
  totalPages (take 7 tenRows) (Some 3) = (7 + 3 - 1) / 3.
Proof.
  destruct (totalPages_is_ceiling (take 7 tenRows) 3 ltac:(lia)) as (_ & Hc & _).
  exact Hc.
Defined.

Lemma slice_nonneg {A : Type} (l : list A) (a b : Z) :
  0 ≤ a → 0 ≤ b →
  slice l a (a + b) = take (Z.to_nat b) (drop (Z.to_nat a) l).
Proof.
  intros Ha Hb. unfold slice.
  destruct (Z.ltb_spec a 0) as [?|_]; [lia|].
  destruct (Z.ltb_spec (a + b) 0) as [?|_]; [lia|].
  destruct (Z_le_gt_dec (Z.of_nat (length l)) a) as [Hout|Hin].
  - rewrite (drop_ge l (Z.to_nat a)) by lia.
    rewrite (drop_ge l) by lia. by rewrite !take_nil.
  - rewrite (Z.min_l a) by lia.
    destruct (Z_le_gt_dec (a + b) (Z.of_nat (length l))) as [Hfit|Hover].
    + rewrite Z.min_l by lia. f_equal. lia.
    + rewrite Z.min_r by lia.
      rewrite !take_ge; [done | rewrite length_drop; lia | rewrite length_drop; lia].
Qed.

Lemma chunks_concat {A : Type} (l : list A) (n m : nat) :
  concat ((fun k => take n (drop (k * n) l)) <$> seq 0 m) = take (m * n) l.
Proof.
  induction m as [|m IH]; [done|].
  rewrite seq_S, fmap_app, concat_app, IH. simpl.
  rewrite app_nil_r, take_take_drop. f_equal. lia.
Qed.

Lemma paginatedData_chunk (sorted : list Row) (ps cp : Z) :
  0 < ps → 1 ≤ cp →
  paginatedData sorted cp (Some ps)
  = take (Z.to_nat ps) (drop (Z.to_nat ((cp - 1) * ps)) sorted).
Proof.
  intros Hps Hcp. unfold paginatedData, truthyPageSize.
  destruct (Z.eqb_spec ps 0) as [?|_]; [lia|].
  apply slice_nonneg; nia.
Qed.

(** C8. With a page size [ps > 0] and a current page [cp ≥ 1] the rendered
    window is the slice [(cp-1)*ps, cp*ps) of the sorted collection cut off
    at its end: position [i] of the window holds element [(cp-1)*ps + i]
    for [i < ps]; a page past the last one is empty.  Without a page size
    the window is the whole collection.  The windows of pages
    [1 .. totalPages], one after the other, are the collection itself. *)
Theorem paginatedData_window
    (sorted : list Row) (ps cp : Z) (Hps : 0 < ps) (Hcp : 1 ≤ cp) :
  paginatedData sorted cp (Some ps)
    = take (Z.to_nat ps) (drop (Z.to_nat ((cp - 1) * ps)) sorted) ∧
  (∀ i : nat,
     paginatedData sorted cp (Some ps) !! i
     = if decide (Z.of_nat i < ps)
       then sorted !! (Z.to_nat ((cp - 1) * ps) + i)%nat
       else None) ∧
  (totalPages sorted (Some ps) < cp → paginatedData sorted cp (Some ps) = []) ∧
  paginatedData sorted cp None = sorted ∧
  concat ((fun page => paginatedData sorted page (Some ps))
            <$> pagesUpTo (totalPages sorted (Some ps))) = sorted.
Proof.
  pose proof (paginatedData_chunk sorted ps cp Hps Hcp) as Hchunk.
  pose proof (totalPages_bounds sorted ps Hps) as Hceil.
  split_and!.
  - done.
  - intros i. rewrite Hchunk. case_decide as Hi.
    + rewrite lookup_take_lt by lia. apply lookup_drop.
    + apply lookup_take_ge. lia.
  - intros Hlast. rewrite Hchunk, drop_ge; [apply take_nil | nia].
  - reflexivity.
  - unfold pagesUpTo. rewrite <- list_fmap_compose.
    rewrite <- fmap_S_seq, <- list_fmap_compose.
    erewrite list_fmap_ext; [rewrite (chunks_concat sorted (Z.to_nat ps))|].
    + apply take_ge. nia.
    + intros _ k _. simpl. rewrite paginatedData_chunk by lia.
      do 2 f_equal. nia.
Qed.

Lemma paginatedData_window_witness :
  paginatedData tenRows 4 (Some 3) = drop 9 tenRows ∧
  paginatedData tenRows 5 (Some 3) = [] ∧
  concat ((fun page => paginatedData tenRows page (Some 3)) <$> [1; 2; 3; 4])
    = tenRows.
Proof.
  destruct (paginatedData_window tenRows 3 4 ltac:(lia) ltac:(lia))
    as (Hwin & _ & _ & _ & Hall).
  destruct (paginatedData_window tenRows 3 5 ltac:(lia) ltac:(lia))
    as (_ & _ & Hpast & _ & _).
  split_and!.
  - rewrite Hwin. reflexivity.
  - apply Hpast. vm_compute. reflexivity.
  - exact Hall.
Defined.

(** ** Selection *)

Lemma elem_of_mapIdx {A B : Type} (f : A -> Z -> B) (l : list A) (idx : Z) (y : B) :
  y ∈ mapIdx f l idx ↔
  ∃ (i : nat) (x : A), l !! i = Some x ∧ y = f x (idx + Z.of_nat i).
Proof.
  revert idx. induction l as [|a l IH]; intros idx; simpl.
  - split; [intros Hin; by apply elem_of_nil in Hin | intros (i & x & Hl & _); done].
  - rewrite elem_of_cons, IH. split.
    + intros [-> | (i & x & Hl & ->)].
      * exists 0%nat, a. split; [done | f_equal; lia].
      * exists (S i), x. split; [done | f_equal; lia].
    + intros (i & x & Hl & ->). destruct i as [|i]; simpl in Hl.
      * left. injection Hl as ->. f_equal. lia.
      * right. exists i, x. split; [done | f_equal; lia].
Qed.

Lemma filterIdx_spec {A : Type} (f : A -> Z -> bool) (l : list A) (idx : Z) :
  sublist (filterIdx f l idx) l ∧
  ∀ x, x ∈ filterIdx f l idx ↔
       ∃ i : nat, l !! i = Some x ∧ f x (idx + Z.of_nat i) = true.
Proof.
  revert idx. induction l as [|a l IH]; intros idx; simpl.
  - split; [constructor|]. intros x. split.
    + intros Hin. by apply elem_of_nil in Hin.
    + intros (i & Hl & _). done.
  - destruct (IH (idx + 1)) as [Hsub Hmem].
    assert (Hshift : ∀ x,
      (∃ i : nat, (a :: l) !! i = Some x ∧ f x (idx + Z.of_nat i) = true) ↔
      (x = a ∧ f a idx = true) ∨
      (∃ i : nat, l !! i = Some x ∧ f x (idx + 1 + Z.of_nat i) = true)).
    { intros x. split.
      - intros ([|i] & Hl & Hf); simpl in Hl.
        + left. injection Hl as ->. split; [done|].
          by rewrite Z.add_0_r in Hf.
        + right. exists i. split; [done|].
          by replace (idx + 1 + Z.of_nat i) with (idx + Z.of_nat (S i)) by lia.
      - intros [[-> Hf] | (i & Hl & Hf)].
        + exists 0%nat. split; [done|]. by rewrite Z.add_0_r.
        + exists (S i). split; [done|].
          by replace (idx + Z.of_nat (S i)) with (idx + 1 + Z.of_nat i) by lia. }
    destruct (f a idx) eqn:Hfa.
    + split; [by constructor|]. intros x.
      rewrite elem_of_cons, Hmem, Hshift. intuition auto.
    + split; [by constructor|]. intros x.
      rewrite Hmem, Hshift. intuition discriminate.
Qed.

(** The second "select all" drops the keys of page 1: three keys remain,
    not six. *)
Lemma select_all_drops_other_pages :
  size (selectedRows afterTwoSelectAlls) = 3%nat ∧
  size (selectedRows afterTwoSelectAlls) ≠ 6%nat ∧
  VNum 1 ∈ selectedRows (run tenProps initialState [ToggleAll true]) ∧
  VNum 1 ∉ selectedRows afterTwoSelectAlls.
Proof.
  split_and!.
  - by vm_compute.
  - by vm_compute.
  - apply (bool_decide_unpack _). by vm_compute.
  - apply (bool_decide_unpack _). by vm_compute.
Qed.

(** C1 (amended). "Select all" with [checked = true] makes the selection
    exactly the identity keys of the current page's rows, each taken at its
    position on the page; what was selected before does not matter.  On ten
    rows at three to a page, selecting all on page 1 and then on page 2
    leaves the three keys of page 2. *)
Theorem handleSelectAll_checked `{Engine} (p : Props) (s : State) :
  (∀ k : Value,
     k ∈ selectedRows (fst (handleSelectAll p s true)) ↔
     ∃ (i : nat) (record : Row),
       paginatedView p s !! i = Some record ∧
       k = getRowKey (rowKey p) record (Z.of_nat i)) ∧
  (∀ before : gset Value,
     selectedRows (fst (handleSelectAll p (setSelectedRows before s) true))
     = selectedRows (fst (handleSelectAll p s true))) ∧
  selectedRows afterTwoSelectAlls = {[ VNum 4; VNum 5; VNum 6 ]} ∧
  size (selectedRows afterTwoSelectAlls) = 3%nat.
Proof.
  split_and!.
  - intros k. unfold handleSelectAll. simpl.
    rewrite elem_of_list_to_set, elem_of_mapIdx.
    by setoid_rewrite Z.add_0_l.
  - intros before. reflexivity.
  - by vm_compute.
  - by vm_compute.
Qed.

(** On a sorted table "select all" hands the callback the page in display
    order, which is not the data filtered in its own order. *)
Lemma select_all_emits_display_order :
  snd (step peopleProps peopleByName (ToggleAll true)) = Some [amy; bob; cal] ∧
  filterIdx (fun item idx =>
               bool_decide (getRowKey (rowKey peopleProps) item idx
                            ∈ selectedRows (fst (step peopleProps peopleByName (ToggleAll true)))))
            (data peopleProps) 0
  = [bob; amy; cal] ∧
  [amy; bob; cal] ≠ [bob; amy; cal].
Proof.
  split_and!.
  - by vm_compute.
  - by vm_compute.
  - intros Heq. injection Heq as Heq _. by vm_compute in Heq.
Qed.

(** C6 (amended). With a callback registered, every selection handler
    calls it within the same step.  A row toggle passes the rows of the full
    data, in data order, whose identity key (taken at the row's position in
    the data) is in the new selection.  "Select all" passes the current
    page's rows in display order; "deselect all" and "clear selection" pass
    the empty list and leave the selection empty. *)
Theorem selection_handlers_emit `{Engine} (p : Props) (s : State)
    (Hobserver : onRowSelect p = true) :
  (∀ record checked index,
     ∃ emitted : list Row,
       snd (step p s (ToggleRow record checked index)) = Some emitted ∧
       emitted
       = filterIdx (fun item idx =>
                      bool_decide (getRowKey (rowKey p) item idx
                        ∈ selectedRows (fst (step p s (ToggleRow record checked index)))))
                   (data p) 0 ∧
       sublist emitted (data p) ∧
       ∀ item, item ∈ emitted ↔
               ∃ i : nat, data p !! i = Some item ∧
                 getRowKey (rowKey p) item (Z.of_nat i)
                 ∈ selectedRows (fst (step p s (ToggleRow record checked index)))) ∧
  snd (step p s (ToggleAll true)) = Some (paginatedView p s) ∧
  step p s (ToggleAll false) = (setSelectedRows ∅ s, Some []) ∧
  step p s ClickClear = (setSelectedRows ∅ s, Some []).
Proof.
  split_and!.
  - intros record checked index. eexists. split_and!.
    + simpl. unfold handleRowSelect, emit. rewrite Hobserver. reflexivity.
    + reflexivity.
    + apply filterIdx_spec.
    + intros item.
      match goal with
      | |- context [filterIdx ?f ?l 0] =>
          destruct (filterIdx_spec f l 0) as [_ Hmem]
      end.
      rewrite Hmem.
      split; intros (i & Hl & Hk); exists i; (split; [done|]).
      * rewrite Z.add_0_l in Hk. by apply bool_decide_eq_true in Hk.
      * rewrite Z.add_0_l. by apply bool_decide_eq_true.
  - simpl. unfold handleSelectAll, emit. by rewrite Hobserver.
  - simpl. unfold handleSelectAll, emit. by rewrite Hobserver.
  - simpl. unfold clearSelection, emit. by rewrite Hobserver.
Qed.

Lemma selection_handlers_emit_witness :
  snd (step peopleProps peopleByName (ToggleAll true))
    = Some (paginatedView peopleProps peopleByName) ∧
  step peopleProps peopleByName ClickClear
    = (setSelectedRows ∅ peopleByName, Some []).
Proof.
  destruct (selection_handlers_emit peopleProps peopleByName eq_refl)
    as (_ & Hall & _ & Hclear).
  split; [exact Hall | exact Hclear].
Defined.

(** ** Selection is untouched by filtering, sorting and paging *)

(** C9. Typing in the search box, clicking a header and moving between
    pages leave the selection set as it was and call no callback.  A row
    that is selected, filtered out by a query and brought back by restoring
    the query is still selected: the state is the one before the query was
    typed. *)
Theorem view_changes_keep_selection `{Engine} (p : Props) (s : State) (e : Event)
    (Hview : isViewChange e = true) :
  selectedRows (fst (step p s e)) = selectedRows s ∧
  snd (step p s e) = None ∧
  (∀ es, forallb isViewChange es = true →
         selectedRows (run p s es) = selectedRows s) ∧
  (∀ record index q,
     let selected := fst (step p s (ToggleRow record true index)) in
     getRowKey (rowKey p) record index ∈ selectedRows selected ∧
     getRowKey (rowKey p) record index
       ∈ selectedRows (run p selected [TypeSearch q]) ∧
     run p selected [TypeSearch q; TypeSearch (searchQuery s)] = selected).
Proof.
  assert (Hone : ∀ st ev, isViewChange ev = true →
                          selectedRows (fst (step p st ev)) = selectedRows st).
  { intros st [] Hev; try discriminate; simpl; try reflexivity.
    unfold handleSort. by destruct (sortable column). }
  split_and!.
  - by apply Hone.
  - destruct e; try discriminate; reflexivity.
  - intros es. revert s. induction es as [|ev es IH]; intros s Hall; [done|].
    simpl in Hall. apply andb_true_iff in Hall as [Hev Hes].
    unfold run in *. simpl. rewrite IH by done. by apply Hone.
  - intros record index q selected.
    assert (Hin : getRowKey (rowKey p) record index ∈ selectedRows selected).
    { subst selected. simpl. apply elem_of_union. right. by apply elem_of_singleton. }
    split_and!; [done | done |].
    subst selected. unfold run. simpl. by destruct s.
Qed.

Lemma view_changes_keep_selection_witness :
  let selected := fst (step peopleProps initialState (ToggleRow bob true 0)) in
  selectedRows (fst (step peopleProps selected (TypeSearch "amy")))
    = selectedRows selected ∧
  paginatedView peopleProps (run peopleProps selected [TypeSearch "amy"]) = [amy] ∧
  paginatedView peopleProps
    (run peopleProps selected [TypeSearch "amy"; TypeSearch ""]) = [bob; amy; cal] ∧
  VNum 1 ∈ selectedRows (run peopleProps selected [TypeSearch "amy"; TypeSearch ""]).
Proof.
  intros selected.
  destruct (view_changes_keep_selection peopleProps selected (TypeSearch "amy") eq_refl)
    as (Hsame & _ & Hrun & _).
  split_and!.
  - exact Hsame.
  - by vm_compute.
  - by vm_compute.
  - rewrite (Hrun [TypeSearch "amy"; TypeSearch ""] eq_refl).
    apply (bool_decide_unpack _). by vm_compute.
Defined.

(** ** Sorting *)

(** C3. Clicking a sortable column [A] takes the sort state from unsorted
    to ([A], ascending), then to ([A], descending), then back to unsorted;
    clicking a sortable column other than the one sorted by gives that
    column ascending; clicking a column that is not sortable changes
    nothing.  On Bob, Amy, Cal sorted by name, one click shows Amy, Bob,
    Cal, a second Cal, Bob, Amy, a third the original Bob, Amy, Cal. *)
Theorem handleSort_cycle (A : Column) (s : State) (HA : sortable A = true) :
  (sortState s = unsorted → sortState (handleSort A s) = sortedBy A asc) ∧
  (sortState s = sortedBy A asc → sortState (handleSort A s) = sortedBy A desc) ∧
  (sortState s = sortedBy A desc → sortState (handleSort A s) = unsorted) ∧
  (sortKey (sortState s) ≠ Some (key A) →
     sortState (handleSort A s) = sortedBy A asc) ∧
  (∀ N : Column, sortable N = false → handleSort N s = s) ∧
  sortState initialState = unsorted ∧
  namesAfter [ClickHeader nameColumn]
    = [VStr "Amy"; VStr "Bob"; VStr "Cal"] ∧
  namesAfter [ClickHeader nameColumn; ClickHeader nameColumn]
    = [VStr "Cal"; VStr "Bob"; VStr "Amy"] ∧
  namesAfter [ClickHeader nameColumn; ClickHeader nameColumn; ClickHeader nameColumn]
    = [VStr "Bob"; VStr "Amy"; VStr "Cal"].
Proof.
  unfold handleSort. rewrite HA. simpl. unfold nextSortState.
  split_and!.
  - intros ->. reflexivity.
  - intros ->. simpl. rewrite bool_decide_eq_false_2 by (intros Hne; by apply Hne).
    reflexivity.
  - intros ->. simpl. rewrite bool_decide_eq_false_2 by (intros Hne; by apply Hne).
    reflexivity.
  - intros Hother. by rewrite bool_decide_eq_true_2.
  - intros N ->. reflexivity.
  - reflexivity.
  - by vm_compute.
  - by vm_compute.
  - by vm_compute.
Qed.

Lemma handleSort_cycle_witness :
  sortState (handleSort nameColumn initialState) = sortedBy nameColumn asc ∧
  handleSort roleColumn initialState = initialState.
Proof.
  destruct (handleSort_cycle nameColumn initialState eq_refl)
    as (Hfirst & _ & _ & _ & Hnot & _).
  split; [apply Hfirst; reflexivity | apply Hnot; reflexivity].
Defined.




(** ** Stability of the sort *)

Section SortStability.
Context {A : Type} (cmp : A -> A -> Z).

Lemma sortInsert_perm (a : A) (l : list A) : sortInsert cmp a l ≡ₚ a :: l.
Proof.
  induction l as [|y l IH]; simpl; [done|].
  destruct (cmp y a <? 0); [|done].
  rewrite IH. apply Permutation_swap.
Qed.

Lemma Array_sort_perm (l : list A) : Array_sort cmp l ≡ₚ l.
Proof.
  induction l as [|a l IH]; [done|].
  unfold Array_sort in *. simpl. by rewrite sortInsert_perm, IH.
Qed.

Lemma Array_sort_length (l : list A) : length (Array_sort cmp l) = length l.
Proof. by rewrite Array_sort_perm. Qed.

(** Inserting [a] does not disturb the rows picked out by [E], as long as
    [a] only moves behind rows that [E] does not pick when it picks [a]. *)
Lemma sortInsert_filter (E : A -> bool) (a : A) (l : list A) :
  (∀ y, y ∈ l → cmp y a < 0 → E a = true → E y = false) →
  List.filter E (sortInsert cmp a l) = List.filter E (a :: l).
Proof.
  induction l as [|y l IH]; intros Hpass; [done|].
  cbn [sortInsert]. destruct (Z.ltb_spec (cmp y a) 0) as [Hlt|_]; [|done].
  cbn [List.filter]. rewrite IH.
  - cbn [List.filter]. destruct (E a) eqn:Ea; [|done].
    rewrite (Hpass y); [done | by left | done | done].
  - intros z Hz. apply Hpass. by right.
Qed.

(** The rows that compare equal to [x] come out in the order they went in,
    provided the comparator never puts a row strictly before one of
    them without putting it strictly before or after [x] too. *)
Lemma Array_sort_stable (x : A) (l : list A) :
  (∀ y a, y ∈ l → a ∈ l → cmp y a < 0 → cmp a x = 0 → cmp y x ≠ 0) →
  List.filter (fun r => cmp r x =? 0) (Array_sort cmp l)
  = List.filter (fun r => cmp r x =? 0) l.
Proof.
  induction l as [|a l IH]; intros Hcons; [done|].
  unfold Array_sort in *. cbn [foldr]. rewrite sortInsert_filter.
  - cbn [List.filter]. rewrite IH; [done|].
    intros y b Hy Hb. apply Hcons; by right.
  - intros y Hy Hlt Ea. apply Z.eqb_eq in Ea. apply Z.eqb_neq.
    apply (Hcons y a); [right | left | done | done].
    by rewrite <- (Array_sort_perm l).
Qed.
End SortStability.

Lemma names_stay_in_order :
  List.filter (fun r => compareRows asc nameColumn r amy =? 0)
    (sortedData [cal; amy; bob; person 4 "Amy"] byNameAscending [nameColumn])
  = [amy; person 4 "Amy"].
Proof. by vm_compute. Qed.

(** Two null cells never compare equal: the answer is the same non-zero
    number whichever of the two rows is asked about first. *)
Lemma compareRows_both_null `{Engine} (o : SortOrder) (column : Column) (a b : Row) :
  isNullish (getField a (dataIndex column)) = true →
  isNullish (getField b (dataIndex column)) = true →
  compareRows o column a b = compareRows o column b a ∧
  compareRows o column a b = (if decide (o = asc) then -1 else 1).
Proof.
  intros Ha Hb. unfold compareRows, compareValues. rewrite Ha, Hb. done.
Qed.

(** On a column of numbers the sort keeps rows with equal values in their
    input order, in either direction. *)
Lemma sortedData_stable_on_numbers `{Engine} (o : SortOrder) (column : Column)
    (l : list Row) (x : Row) :
  (∀ r, r ∈ x :: l → ∃ n : Z, getField r (dataIndex column) = VNum n) →
  List.filter (fun r => compareRows o column r x =? 0)
              (Array_sort (compareRows o column) l)
  = List.filter (fun r => compareRows o column r x =? 0) l.
Proof.
  intros Hnum. apply Array_sort_stable.
  intros y a Hy Ha.
  destruct (Hnum x ltac:(by left)) as [nx Hx].
  destruct (Hnum y ltac:(by right)) as [ny Hy'].
  destruct (Hnum a ltac:(by right)) as [na Ha'].
  unfold compareRows, compareValues, jsLt. rewrite Hx, Hy', Ha'. simpl.
  destruct o; simpl;
    destruct (Z.ltb_spec ny na), (Z.ltb_spec na ny), (Z.ltb_spec na nx),
             (Z.ltb_spec nx na), (Z.ltb_spec ny nx), (Z.ltb_spec nx ny); lia.
Qed.

(** C7. Two rows whose sorted cell is null or absent are not kept in their
    order: the comparator answers -1 for the pair whichever row comes
    first, and the ascending sort returns the two rows swapped. *)
Theorem two_null_rows_swap `{Engine} (a b : Row) (column : Column)
    (Hkey : key column ≠ "")
    (Ha : isNullish (getField a (dataIndex column)) = true)
    (Hb : isNullish (getField b (dataIndex column)) = true) :
  compareRows asc column a b = -1 ∧
  compareRows asc column b a = -1 ∧
  sortedData [a; b] (sortedBy column asc) [column] = [b; a].
Proof.
  destruct (compareRows_both_null asc column a b Ha Hb) as [Hsym Hab].
  assert (Hba : compareRows asc column b a = -1) by (by rewrite <- Hsym, Hab).
  split_and!; [exact Hab | exact Hba |].
  unfold sortedData, sortedBy. simpl.
  rewrite bool_decide_eq_false_2 by done.
  rewrite bool_decide_eq_true_2 by done.
  unfold Array_sort. simpl. by rewrite Hba.
Qed.

Lemma two_null_rows_swap_witness :
  sortedData [nobody1; nobody2] byNameAscending [nameColumn] = [nobody2; nobody1] ∧
  sortedData [ghost; nobody1] byNameAscending [nameColumn] = [nobody1; ghost].
Proof.
  destruct (two_null_rows_swap nobody1 nobody2 nameColumn
              ltac:(discriminate) eq_refl eq_refl) as (_ & _ & Hnull).
  destruct (two_null_rows_swap ghost nobody1 nameColumn
              ltac:(discriminate) eq_refl eq_refl) as (_ & _ & Habsent).
  split; [exact Hnull | exact Habsent].
Defined.

(** * Further properties of the table *)

(** ** Search: narrowing and letter case *)

Lemma append_assoc (a b c : string) : (a +:+ b) +:+ c = a +:+ (b +:+ c).
Proof.
  induction a as [|x a IH]; [reflexivity|].
  change (String x ((a +:+ b) +:+ c) = String x (a +:+ b +:+ c)). by f_equal.
Qed.

Lemma append_eq_empty (a b : string) : a +:+ b = "" → a = "" ∧ b = "".
Proof. destruct a; [intros Hb; by split | discriminate]. Qed.

Lemma toLowerCase_app (a b : string) :
  toLowerCase (a +:+ b) = toLowerCase a +:+ toLowerCase b.
Proof.
  induction a as [|x a IH]; [reflexivity|].
  change (String (lowerChar x) (toLowerCase (a +:+ b))
          = String (lowerChar x) (toLowerCase a +:+ toLowerCase b)).
  by f_equal.
Qed.

Lemma toLowerCase_empty (s : string) : toLowerCase s = "" ↔ s = "".
Proof. destruct s; simpl; split; done. Qed.

Lemma isSubstring_trans (a b c : string) :
  isSubstring a b → isSubstring b c → isSubstring a c.
Proof.
  intros (p1 & s1 & ->) (p2 & s2 & ->).
  exists (p2 +:+ p1), (s1 +:+ s2).
  rewrite (append_assoc p2 p1), (append_assoc p1), (append_assoc a). done.
Qed.

Lemma filter_implies_sublist {A : Type} (f g : A -> bool) (l : list A) :
  (∀ x, f x = true → g x = true) →
  sublist (List.filter f l) (List.filter g l).
Proof.
  intros Hfg. induction l as [|x l IH]; simpl; [constructor|].
  destruct (f x) eqn:Hf.
  - rewrite (Hfg x Hf). by constructor.
  - destruct (g x); [by constructor | done].
Qed.

Lemma Matches_narrow (columns : list Column) (q pre post : string) (record : Row) :
  Matches columns (pre +:+ q +:+ post) record → Matches columns q record.
Proof.
  intros (column & Hin & Hsub). exists column. split; [done|].
  eapply isSubstring_trans; [|exact Hsub].
  exists (toLowerCase pre), (toLowerCase post). by rewrite !toLowerCase_app.
Qed.

(** X1. On ASCII text, typing more never brings rows back: when the cells
    searched and the query are ASCII, the result for a query that contains
    [q] is a subsequence of the result for [q]. *)
Theorem search_narrows (D : list Row) (columns : list Column) (q pre post : string)
    (Hpre : asciiOnly pre = true) (Hq : asciiOnly q = true)
    (Hpost : asciiOnly post = true)
    (Hcells : ∀ record column, record ∈ D → column ∈ columns →
                asciiOnly (String_ (getField record (dataIndex column))) = true) :
  sublist (filteredData D columns (pre +:+ q +:+ post)) (filteredData D columns q) ∧
  ∀ record, record ∈ filteredData D columns (pre +:+ q +:+ post) →
            record ∈ filteredData D columns q.
Proof.
  assert (Hsub : sublist (filteredData D columns (pre +:+ q +:+ post))
                         (filteredData D columns q)).
  { unfold filteredData. case_bool_decide as Hlong.
    - apply append_eq_empty in Hlong as [_ Hempty].
      apply append_eq_empty in Hempty as [-> _]. by rewrite bool_decide_eq_true_2.
    - case_bool_decide as Hempty; [apply filter_sublist|].
      apply filter_implies_sublist. intros record Hm.
      apply rowMatches_spec. apply rowMatches_spec in Hm.
      by eapply Matches_narrow. }
  split; [exact Hsub|]. intros record Hin. by eapply elem_of_sublist.
Qed.

Lemma search_narrows_witness :
  sublist (filteredData [bob; amy; cal] [nameColumn] "Am")
          (filteredData [bob; amy; cal] [nameColumn] "A") ∧
  filteredData [bob; amy; cal] [nameColumn] "Am" = [amy] ∧
  filteredData [bob; amy; cal] [nameColumn] "A" = [amy; cal].
Proof.
  assert (Hcells : ∀ record column,
            record ∈ [bob; amy; cal] → column ∈ [nameColumn] →
            asciiOnly (String_ (getField record (dataIndex column))) = true).
  { intros record column Hr Hc.
    apply list_elem_of_In in Hr. apply list_elem_of_In in Hc. simpl in Hr, Hc.
    destruct Hc as [<- | []]. by destruct Hr as [<- | [<- | [<- | []]]]. }
  destruct (search_narrows [bob; amy; cal] [nameColumn] "A" "" "m"
              eq_refl eq_refl eq_refl Hcells) as [Hsub _].
  split_and!; [exact Hsub | by vm_compute | by vm_compute].
Defined.

(** X2. The letter case of the query does not matter: two queries with
    the same lower-case form give the same rows. *)
Theorem search_ignores_case (D : list Row) (columns : list Column) (q q' : string)
    (Hsame : toLowerCase q = toLowerCase q') :
  filteredData D columns q = filteredData D columns q'.
Proof.
  unfold filteredData.
  assert (Hempty : q = "" ↔ q' = "").
  { rewrite <- (toLowerCase_empty q), <- (toLowerCase_empty q'). by rewrite Hsame. }
  case_bool_decide as Hq.
  - rewrite bool_decide_eq_true_2; [done | by apply Hempty].
  - rewrite bool_decide_eq_false_2 by (intros Hq'; by apply Hq, Hempty).
    f_equal. unfold rowMatches, cellMatches. by rewrite Hsame.
Qed.

Lemma search_ignores_case_witness :
  filteredData [bob; amy; cal] [nameColumn] "aM"
  = filteredData [bob; amy; cal] [nameColumn] "Am".
Proof. apply search_ignores_case. reflexivity. Defined.

(** ** Sorting: same rows, in order *)

Lemma sortedData_cases `{Engine} (l : list Row) (st : SortState) (columns : list Column) :
  sortedData l st columns = l ∨
  ∃ o column, sortedData l st columns = Array_sort (compareRows o column) l.
Proof.
  unfold sortedData. destruct (sortKey st) as [k|]; [|by left].
  destruct (order st) as [o|]; [|by left].
  case_bool_decide; [by left|].
  destruct (List.find _ columns) as [column|]; [|by left].
  right. by exists o, column.
Qed.

(** X3. Whatever the sort state, the columns and the engine, sorting
    neither adds nor drops a row: the sorted collection is a permutation of
    the filtered one, so the number of rows and of pages is the same. *)
Theorem sortedData_permutation `{Engine} (l : list Row) (st : SortState)
    (columns : list Column) :
  sortedData l st columns ≡ₚ l ∧
  length (sortedData l st columns) = length l ∧
  (∀ record, record ∈ sortedData l st columns ↔ record ∈ l) ∧
  (∀ pageSize, totalPages (sortedData l st columns) pageSize = totalPages l pageSize).
Proof.
  assert (Hperm : sortedData l st columns ≡ₚ l).
  { destruct (sortedData_cases l st columns) as [-> | (o & column & ->)];
      [done | apply Array_sort_perm]. }
  assert (Hlen : length (sortedData l st columns) = length l) by by rewrite Hperm.
  split_and!; [done | done | |].
  - intros record. by rewrite Hperm.
  - intros pageSize. unfold totalPages. by rewrite Hlen.
Qed.

Section SortOrdering.
Context {A : Type} (cmp : A -> A -> Z) (R : relation A) `{!Transitive R}.

Lemma sortInsert_sorted (a : A) (l : list A) :
  (∀ y, y ∈ l → cmp y a < 0 → R y a) →
  (∀ y, y ∈ l → ¬ cmp y a < 0 → R a y) →
  StronglySorted R l → StronglySorted R (sortInsert cmp a l).
Proof.
  induction l as [|y l IH]; intros Hbefore Hafter Hsorted.
  - repeat constructor.
  - apply StronglySorted_inv in Hsorted as [Hl Hy].
    cbn [sortInsert]. destruct (Z.ltb_spec (cmp y a) 0) as [Hlt|Hge].
    + constructor.
      * apply IH; [| |done]; intros z Hz; [apply Hbefore | apply Hafter]; by right.
      * rewrite (sortInsert_perm cmp a l). constructor; [|done].
        apply Hbefore; [by left | done].
    + constructor; [by constructor|].
      assert (Hay : R a y) by (apply Hafter; [by left | lia]).
      constructor; [done|].
      eapply Forall_impl; [exact Hy|]. intros z Hyz. by transitivity y.
Qed.

Lemma Array_sort_sorted (l : list A) :
  (∀ y a, y ∈ l → a ∈ l → cmp y a < 0 → R y a) →
  (∀ y a, y ∈ l → a ∈ l → ¬ cmp y a < 0 → R a y) →
  StronglySorted R (Array_sort cmp l).
Proof.
  induction l as [|a l IH]; intros Hbefore Hafter; [constructor|].
  unfold Array_sort in *. cbn [foldr]. apply sortInsert_sorted.
  - intros y Hy. apply Hbefore; [right | left].
    by rewrite <- (Array_sort_perm cmp l).
  - intros y Hy. apply Hafter; [right | left].
    by rewrite <- (Array_sort_perm cmp l).
  - apply IH; intros y b Hy Hb; [apply Hbefore | apply Hafter]; by right.
Qed.
End SortOrdering.

Global Instance numbersAscend_trans (column : Column) : Transitive (numbersAscend column).
Proof.
  intros a b c (x & y & Ha & Hb & Hxy) (y' & z & Hb' & Hc & Hyz).
  exists x, z. rewrite Hb in Hb'. injection Hb' as <-. split_and!; [done | done | lia].
Qed.

Lemma compareRows_numbers `{Engine} (o : SortOrder) (column : Column) (a b : Row)
    (x y : Z) :
  getField a (dataIndex column) = VNum x →
  getField b (dataIndex column) = VNum y →
  compareRows o column a b
  = match o with
    | asc => if x <? y then -1 else if y <? x then 1 else 0
    | desc => if x <? y then 1 else if y <? x then -1 else 0
    end.
Proof.
  intros Ha Hb. unfold compareRows, compareValues, jsLt. rewrite Ha, Hb. simpl.
  by destruct o.
Qed.

(** X4. On a column whose cells are all integers (a [NaN] cell is none),
    sorting ascending puts the rows in non-decreasing order of the cell and
    sorting descending in non-increasing order. *)
Theorem sortedData_orders_numbers `{Engine} (l : list Row) (columns : list Column)
    (column : Column)
    (Hkey : key column ≠ "")
    (Hfind : List.find (fun col => bool_decide (key col = key column)) columns
             = Some column)
    (Hnum : ∀ r, r ∈ l → ∃ n : Z, getField r (dataIndex column) = VNum n) :
  StronglySorted (numbersAscend column) (sortedData l (sortedBy column asc) columns) ∧
  StronglySorted (flip (numbersAscend column))
                 (sortedData l (sortedBy column desc) columns).
Proof.
  unfold sortedData, sortedBy. simpl.
  rewrite bool_decide_eq_false_2 by done. rewrite Hfind.
  split.
  - apply Array_sort_sorted; [apply _ | |]; intros y a Hy Ha Hcmp;
      destruct (Hnum y Hy) as [ny Hny]; destruct (Hnum a Ha) as [na Hna];
      rewrite (compareRows_numbers asc column y a ny na Hny Hna) in Hcmp.
    + exists ny, na. split_and!; [done | done |].
      destruct (Z.ltb_spec ny na); [lia|]. destruct (Z.ltb_spec na ny); lia.
    + exists na, ny. split_and!; [done | done |].
      destruct (Z.ltb_spec ny na); [lia|]. lia.
  - apply Array_sort_sorted; [apply _ | |]; intros y a Hy Ha Hcmp;
      destruct (Hnum y Hy) as [ny Hny]; destruct (Hnum a Ha) as [na Hna];
      rewrite (compareRows_numbers desc column y a ny na Hny Hna) in Hcmp.
    + exists na, ny. split_and!; [done | done |].
      destruct (Z.ltb_spec ny na); [lia|]. destruct (Z.ltb_spec na ny); lia.
    + exists ny, na. split_and!; [done | done |].
      destruct (Z.ltb_spec ny na); [lia|]. destruct (Z.ltb_spec na ny); lia.
Qed.

Lemma sortedData_orders_numbers_witness :
  StronglySorted (numbersAscend nameColumn)
    (sortedData [scored 1 30; scored 2 10; scored 3 20] (sortedBy nameColumn asc)
                [roleColumn; nameColumn]) ∧
  sortedData [scored 1 30; scored 2 10; scored 3 20] (sortedBy nameColumn asc)
             [roleColumn; nameColumn]
  = [scored 2 10; scored 3 20; scored 1 30].
Proof.
  split; [|by vm_compute].
  apply (sortedData_orders_numbers _ [roleColumn; nameColumn] nameColumn).
  - discriminate.
  - reflexivity.
  - intros r Hr. apply list_elem_of_In in Hr. simpl in Hr.
    destruct Hr as [<- | [<- | [<- | []]]]; eexists; reflexivity.
Defined.

(** ** Pages *)

Lemma paginatedData_length (sorted : list Row) (ps cp : Z) :
  0 < ps → 1 ≤ cp →
  Z.of_nat (length (paginatedData sorted cp (Some ps)))
  = Z.min ps (Z.max 0 (Z.of_nat (length sorted) - (cp - 1) * ps)).
Proof.
  intros Hps Hcp. rewrite paginatedData_chunk by done.
  rewrite length_take, length_drop. nia.
Qed.

Lemma truthyPageSize_pos (ps : Z) : 0 < ps → truthyPageSize (Some ps) = Some ps.
Proof. intros Hps. simpl. destruct (Z.eqb_spec ps 0); [lia | done]. Qed.

Lemma paginatedData_nonempty (sorted : list Row) (ps cp : Z) :
  0 < ps → 1 ≤ cp ≤ totalPages sorted (Some ps) →
  paginatedData sorted cp (Some ps) ≠ [].
Proof.
  intros Hps Hcp Hnil.
  pose proof (totalPages_bounds sorted ps Hps) as Hb.
  pose proof (paginatedData_length sorted ps cp Hps ltac:(lia)) as Hlen.
  rewrite Hnil in Hlen. simpl in Hlen. nia.
Qed.

(** X5. Every page from 1 to [totalPages] holds at least one row and at
    most [pageSize]; every page before the last holds exactly [pageSize],
    and the last one holds the rest. *)
Theorem pages_are_filled (sorted : list Row) (ps cp : Z)
    (Hps : 0 < ps) (Hcp : 1 ≤ cp ≤ totalPages sorted (Some ps)) :
  let rows := Z.of_nat (length (paginatedData sorted cp (Some ps))) in
  1 ≤ rows ≤ ps ∧
  (cp < totalPages sorted (Some ps) → rows = ps) ∧
  (cp = totalPages sorted (Some ps) →
     rows = Z.of_nat (length sorted) - (cp - 1) * ps) ∧
  paginatedData sorted cp (Some ps) ≠ [].
Proof.
  intros rows. subst rows.
  pose proof (totalPages_bounds sorted ps Hps) as Hb.
  pose proof (paginatedData_length sorted ps cp Hps ltac:(lia)) as Hlen.
  split_and!; try nia.
  by apply paginatedData_nonempty.
Qed.

Lemma pages_are_filled_witness :
  Z.of_nat (length (paginatedData (take 7 tenRows) 3 (Some 3))) = 7 - (3 - 1) * 3 ∧
  Z.of_nat (length (paginatedData (take 7 tenRows) 2 (Some 3))) = 3.
Proof.
  assert (Hlast : 1 ≤ 3 ≤ totalPages (take 7 tenRows) (Some 3)) by (by vm_compute).
  assert (Hmid : 1 ≤ 2 ≤ totalPages (take 7 tenRows) (Some 3)) by (by vm_compute).
  destruct (pages_are_filled (take 7 tenRows) 3 3 ltac:(lia) Hlast) as (_ & _ & H3 & _).
  destruct (pages_are_filled (take 7 tenRows) 3 2 ltac:(lia) Hmid) as (_ & H2 & _).
  split; [exact (H3 eq_refl) | apply H2; by vm_compute].
Defined.

(** X6. On a page from 1 to [totalPages] the line "Showing a to b of n"
    is exact: [a ≤ b ≤ n], the page holds [b - a + 1] rows, and they are
    the rows at positions [a .. b] of the sorted collection, counted from
    one. *)
Theorem showing_range_is_exact (sorted : list Row) (ps cp : Z)
    (Hps : 0 < ps) (Hcp : 1 ≤ cp ≤ totalPages sorted (Some ps)) :
  let a := startItem cp (Some ps) in
  let b := endItem sorted cp (Some ps) in
  1 ≤ a ≤ b ∧ b ≤ Z.of_nat (length sorted) ∧
  Z.of_nat (length (paginatedData sorted cp (Some ps))) = b - a + 1 ∧
  (∀ i : nat, Z.of_nat i < b - a + 1 →
     paginatedData sorted cp (Some ps) !! i = sorted !! (Z.to_nat (a - 1) + i)%nat).
Proof.
  intros a b. subst a b. unfold startItem, endItem.
  rewrite truthyPageSize_pos by done.
  pose proof (totalPages_bounds sorted ps Hps) as Hb.
  pose proof (paginatedData_length sorted ps cp Hps ltac:(lia)) as Hlen.
  split_and!; try nia.
  intros i Hi. rewrite paginatedData_chunk by lia.
  rewrite lookup_take_lt by nia. rewrite lookup_drop.
  f_equal. f_equal. lia.
Qed.

Lemma showing_range_is_exact_witness :
  startItem 3 (Some 3) = 7 ∧ endItem (take 7 tenRows) 3 (Some 3) = 7 ∧
  Z.of_nat (length (paginatedData (take 7 tenRows) 3 (Some 3))) = 7 - 7 + 1.
Proof.
  assert (Hcp : 1 ≤ 3 ≤ totalPages (take 7 tenRows) (Some 3)) by (by vm_compute).
  destruct (showing_range_is_exact (take 7 tenRows) 3 3 ltac:(lia) Hcp)
    as (_ & _ & Hrows & _).
  split_and!; [reflexivity | reflexivity | exact Hrows].
Defined.

Lemma elem_of_pageButtons (total page : Z) :
  page ∈ pageButtons total ↔ 1 ≤ page ≤ Z.min total 5.
Proof.
  unfold pageButtons. rewrite list_elem_of_fmap. split.
  - intros (i & -> & Hi). apply elem_of_seq in Hi. lia.
  - intros Hpage. exists (Z.to_nat (page - 1)). split; [lia|].
    apply elem_of_seq. lia.
Qed.

(** X7. While the current page is between 1 and [totalPages], every click
    the pagination bar offers ("Previous", "Next", a numbered button) leads
    to a page in that range again, which is not empty; the rows and their
    order are untouched.  The numbered buttons are the pages 1 to 5 at most:
    a later page has no button. *)
Theorem navigation_stays_in_range `{Engine} (p : Props) (s : State) (e : Event)
    (ps : Z) (Hsize : pageSize p = Some ps) (Hps : 0 < ps)
    (Hcur : 1 ≤ currentPage s ≤ totalPages (sortedView p s) (pageSize p))
    (Hoffered : navigationOffered p s e = true) :
  let s' := fst (step p s e) in
  sortedView p s' = sortedView p s ∧
  1 ≤ currentPage s' ≤ totalPages (sortedView p s') (pageSize p) ∧
  paginatedView p s' ≠ [] ∧
  (∀ page, 5 < page → page ∉ pageButtons (totalPages (sortedView p s) (pageSize p))).
Proof.
  intros s'.
  assert (Hview : sortedView p s' = sortedView p s).
  { subst s'. destruct e; try discriminate;
      (unfold navigationOffered in Hoffered; simpl in Hoffered;
       try (by rewrite andb_false_r in Hoffered)); reflexivity. }
  assert (Hrange : 1 ≤ currentPage s' ≤ totalPages (sortedView p s) (pageSize p)).
  { subst s'. unfold navigationOffered in Hoffered.
    apply andb_true_iff in Hoffered as [_ Hev].
    destruct e; try discriminate; simpl.
    - lia.
    - apply bool_decide_eq_true, elem_of_pageButtons in Hev. lia.
    - lia. }
  split_and!.
  - done.
  - lia.
  - rewrite Hview. lia.
  - unfold paginatedView. rewrite Hview, Hsize.
    rewrite Hsize in Hrange.
    by apply paginatedData_nonempty.
  - intros page Hpage Hin. apply elem_of_pageButtons in Hin. lia.
Qed.

Lemma navigation_stays_in_range_witness :
  let lastPage := run tenProps initialState [ClickPage 4] in
  1 ≤ currentPage (fst (step tenProps lastPage ClickNext))
    ≤ totalPages (sortedView tenProps (fst (step tenProps lastPage ClickNext)))
                 (pageSize tenProps) ∧
  paginatedView tenProps (fst (step tenProps lastPage ClickNext)) ≠ [].
Proof.
  intros lastPage.
  assert (Hcur : 1 ≤ currentPage lastPage
                 ≤ totalPages (sortedView tenProps lastPage) (pageSize tenProps))
    by (by vm_compute).
  assert (Hoffered : navigationOffered tenProps lastPage ClickNext = true)
    by (by vm_compute).
  destruct (navigation_stays_in_range tenProps lastPage ClickNext 3
              eq_refl ltac:(lia) Hcur Hoffered) as (_ & Hrange & Hrows & _).
  split; [exact Hrange | exact Hrows].
Defined.

(** X8. Typing a query does not move the current page.  When the rows
    that match are too few to reach it, the table shows no row at all,
    although rows match. *)
Theorem search_keeps_the_page `{Engine} (p : Props) (s : State) (q : string) (ps : Z)
    (Hsize : pageSize p = Some ps) (Hps : 0 < ps) (Hcur : 1 ≤ currentPage s)
    (Hfew : Z.of_nat (length (filteredData (data p) (columns p) q))
            ≤ (currentPage s - 1) * ps) :
  let s' := fst (step p s (TypeSearch q)) in
  currentPage s' = currentPage s ∧
  length (sortedView p s') = length (filteredData (data p) (columns p) q) ∧
  paginatedView p s' = [].
Proof.
  intros s'. subst s'. simpl.
  assert (Hlen : length (sortedView p (setSearchQuery q s))
                 = length (filteredData (data p) (columns p) q)).
  { unfold sortedView, filteredView. simpl.
    by destruct (sortedData_cases (filteredData (data p) (columns p) q)
                   (sortState s) (columns p)) as [-> | (o & column & ->)];
      [|rewrite Array_sort_length]. }
  split_and!; [done | done |].
  unfold paginatedView. rewrite Hsize. simpl currentPage.
  rewrite paginatedData_chunk by done.
  rewrite drop_ge; [apply take_nil|]. rewrite Hlen. nia.
Qed.

Lemma search_keeps_the_page_witness :
  let lastPage := run tenProps initialState [ClickPage 4] in
  length (sortedView tenProps (fst (step tenProps lastPage (TypeSearch "row1")))) = 2%nat ∧
  paginatedView tenProps (fst (step tenProps lastPage (TypeSearch "row1"))) = [].
Proof.
  intros lastPage.
  assert (Hfew : Z.of_nat (length (filteredData (data tenProps) (columns tenProps) "row1"))
                 ≤ (currentPage lastPage - 1) * 3) by (by vm_compute).
  destruct (search_keeps_the_page tenProps lastPage "row1" 3 eq_refl ltac:(lia)
              ltac:(by vm_compute) Hfew) as (_ & Hlen & Hempty).
  split; [rewrite Hlen; by vm_compute | exact Hempty].
Defined.

(** ** The header checkbox and the row checkboxes *)

Lemma forallb_mapIdx {A : Type} (g : A -> Z -> bool) (l : list A) (idx : Z) :
  forallb (fun b : bool => b) (mapIdx g l idx) = true ↔
  ∀ (i : nat) (x : A), l !! i = Some x → g x (idx + Z.of_nat i) = true.
Proof.
  revert idx. induction l as [|a l IH]; intros idx; simpl.
  - split; [intros _ i x Hl; done | done].
  - rewrite andb_true_iff, IH. split.
    + intros [Ha Hl] [|i] x Hx; simpl in Hx.
      * injection Hx as <-. by rewrite Z.add_0_r.
      * replace (idx + Z.of_nat (S i)) with (idx + 1 + Z.of_nat i) by lia. by apply Hl.
    + intros Hall. split.
      * rewrite <- (Z.add_0_r idx). by apply (Hall 0%nat).
      * intros i x Hx.
        replace (idx + 1 + Z.of_nat i) with (idx + Z.of_nat (S i)) by lia.
        by apply Hall.
Qed.

Lemma all_keys_selected (rk : RowKey) (rows : list Row) :
  forallb (fun b : bool => b)
    (mapIdx (fun record index =>
               bool_decide (getRowKey rk record index
                            ∈ (list_to_set (mapIdx (getRowKey rk) rows 0) : gset Value)))
            rows 0) = true.
Proof.
  apply forallb_mapIdx. intros i x Hx.
  apply bool_decide_eq_true, elem_of_list_to_set, elem_of_mapIdx. eauto.
Qed.

(** X9. After "select all" the header checkbox is checked exactly when the
    page has a row, and it is never shown as indeterminate; after "deselect
    all" it is neither checked nor indeterminate.  In no state is it both. *)
Theorem header_checkbox_after_select_all `{Engine} (p : Props) (s : State) :
  isAllSelected p (fst (handleSelectAll p s true))
    = bool_decide (paginatedView p s ≠ []) ∧
  isIndeterminate p (fst (handleSelectAll p s true)) = false ∧
  isAllSelected p (fst (handleSelectAll p s false)) = false ∧
  isIndeterminate p (fst (handleSelectAll p s false)) = false ∧
  isAllSelected p s && isIndeterminate p s = false.
Proof.
  assert (Hall : isAllSelected p (fst (handleSelectAll p s true))
                 = bool_decide (paginatedView p s ≠ [])).
  { transitivity
      (bool_decide (0 < length (paginatedView p s))%nat &&
       forallb (fun b : bool => b)
         (mapIdx (fun record index =>
                    bool_decide (getRowKey (rowKey p) record index
                      ∈ (list_to_set (mapIdx (getRowKey (rowKey p)) (paginatedView p s) 0)
                         : gset Value)))
                 (paginatedView p s) 0)); [reflexivity|].
    rewrite all_keys_selected, andb_true_r.
    destruct (paginatedView p s) as [|r rows]; [done|].
    rewrite bool_decide_eq_true_2 by (simpl; lia).
    by rewrite bool_decide_eq_true_2. }
  split_and!.
  - exact Hall.
  - unfold isIndeterminate. rewrite Hall.
    destruct (paginatedView p s) as [|r rows] eqn:Hpage.
    + unfold handleSelectAll. cbn [fst selectedRows setSelectedRows].
      rewrite Hpage. cbn [mapIdx list_to_set foldr].
      rewrite size_empty. by rewrite bool_decide_eq_false_2 by lia.
    + rewrite (bool_decide_eq_true_2 (r :: rows ≠ [])) by done.
      by rewrite andb_false_r.
  - transitivity
      (bool_decide (0 < length (paginatedView p s))%nat &&
       forallb (fun b : bool => b)
         (mapIdx (fun record index =>
                    bool_decide (getRowKey (rowKey p) record index ∈ (∅ : gset Value)))
                 (paginatedView p s) 0)); [reflexivity|].
    destruct (paginatedView p s) as [|r rows]; [done|].
    cbn [mapIdx forallb].
    rewrite (bool_decide_eq_false_2 (_ ∈ ∅)) by apply not_elem_of_empty.
    by rewrite andb_false_r.
  - unfold isIndeterminate, handleSelectAll. cbn [fst selectedRows setSelectedRows].
    rewrite size_empty. by rewrite bool_decide_eq_false_2 by lia.
  - unfold isIndeterminate. destruct (isAllSelected p s); [|done].
    by rewrite andb_false_r.
Qed.

(** X10. Checking a row that was not selected and unchecking it again
    gives back the selection as it was.  Checking it adds one key and
    changes the membership of no other key, and checking it a second time
    changes nothing. *)
Theorem row_toggle_round_trip (p : Props) (s : State) (record : Row) (index : Z)
    (Hnew : getRowKey (rowKey p) record index ∉ selectedRows s) :
  let checked := fst (handleRowSelect p s record true index) in
  selectedRows (fst (handleRowSelect p checked record false index)) = selectedRows s ∧
  size (selectedRows checked) = S (size (selectedRows s)) ∧
  (∀ k, k ≠ getRowKey (rowKey p) record index →
        (k ∈ selectedRows checked ↔ k ∈ selectedRows s)) ∧
  selectedRows (fst (handleRowSelect p checked record true index))
    = selectedRows checked.
Proof.
  intros checked. subst checked. simpl.
  set (k := getRowKey (rowKey p) record index) in *.
  split_and!.
  - apply set_eq. intros x.
    rewrite elem_of_difference, elem_of_union, elem_of_singleton.
    split; [intros [[Hx | ->] Hne]; done | intros Hx; split; [by left|]].
    intros ->. done.
  - rewrite size_union, size_singleton; [lia|].
    intros x Hx Hk. apply elem_of_singleton in Hk as ->. done.
  - intros x Hx. rewrite elem_of_union, elem_of_singleton. intuition.
  - apply set_eq. intros x. rewrite !elem_of_union, elem_of_singleton. intuition.
Qed.

Lemma row_toggle_round_trip_witness :
  let checked := fst (handleRowSelect peopleProps initialState amy true 1) in
  selectedRows (fst (handleRowSelect peopleProps checked amy false 1))
    = selectedRows initialState ∧
  size (selectedRows checked) = 1%nat.
Proof.
  intros checked.
  assert (Hnew : getRowKey (rowKey peopleProps) amy 1 ∉ selectedRows initialState).
  { apply (bool_decide_unpack _). by vm_compute. }
  destruct (row_toggle_round_trip peopleProps initialState amy 1 Hnew)
    as (Hback & Hsize & _).
  split; [exact Hback | exact Hsize].
Defined.

(** ** Rows without a key *)

Lemma filterIdx_ext {A : Type} (f g : A -> Z -> bool) (l : list A) (idx : Z) :
  (∀ x i, x ∈ l → f x i = g x i) → filterIdx f l idx = filterIdx g l idx.
Proof.
  revert idx. induction l as [|a l IH]; intros idx Hfg; simpl; [done|].
  rewrite (Hfg a idx) by by left.
  rewrite (IH (idx + 1)) by (intros x i Hx; apply Hfg; by right). done.
Qed.

Lemma filterIdx_past {A : Type} (l : list A) (idx i : Z) :
  i < idx → filterIdx (fun (_ : A) j => bool_decide (j = i)) l idx = [].
Proof.
  revert idx. induction l as [|a l IH]; intros idx Hlt; simpl; [done|].
  rewrite bool_decide_eq_false_2 by lia. apply IH. lia.
Qed.

Lemma filterIdx_position {A : Type} (l : list A) (idx i : Z) :
  idx ≤ i →
  filterIdx (fun (_ : A) j => bool_decide (j = i)) l idx
  = option_list (l !! Z.to_nat (i - idx)).
Proof.
  revert idx. induction l as [|a l IH]; intros idx Hle; simpl; [done|].
  case_bool_decide as Hi.
  - subst i. rewrite Z.sub_diag. simpl. f_equal. apply filterIdx_past. lia.
  - rewrite IH by lia.
    replace (Z.to_nat (i - idx)) with (S (Z.to_nat (i - (idx + 1)))) by lia. done.
Qed.

(** X11. When no row carries the key field, keys are positions: checking a
    row shown at position [index] of the current page (nothing selected
    before) hands the callback the row at position [index] of the whole
    data, whichever row was clicked and whichever page is shown. *)
Theorem keyless_rows_select_by_position (p : Props) (s : State) (record : Row)
    (index : Z) (field : string)
    (Hkey : rowKey p = RowKeyField field)
    (Hdata : ∀ r, r ∈ data p → isNullish (getField r field) = true)
    (Hrecord : isNullish (getField record field) = true)
    (Hnone : selectedRows s = ∅)
    (Hobserver : onRowSelect p = true)
    (Hindex : 0 ≤ index) :
  selectedRows (fst (handleRowSelect p s record true index)) = {[ VNum index ]} ∧
  snd (handleRowSelect p s record true index)
    = Some (option_list (data p !! Z.to_nat index)).
Proof.
  unfold handleRowSelect, emit. rewrite Hobserver, Hnone, Hkey. simpl.
  unfold nullish. rewrite Hrecord.
  split; [by rewrite (left_id_L ∅ (∪))|].
  f_equal.
  rewrite (filterIdx_ext _ (fun _ j => bool_decide (j = index))).
  - rewrite filterIdx_position by done. by rewrite Z.sub_0_r.
  - intros x i Hx. rewrite (Hdata x Hx).
    apply bool_decide_ext. rewrite elem_of_union, elem_of_singleton.
    split.
    + intros [Hin | Heq]; [by apply not_elem_of_empty in Hin | by injection Heq].
    + intros ->. by right.
Qed.

Lemma keyless_rows_select_by_position_witness :
  let secondPage := run anonymousProps initialState [ClickPage 2] in
  paginatedView anonymousProps secondPage = [anonymous "Dee"; anonymous "Eve"] ∧
  snd (handleRowSelect anonymousProps secondPage (anonymous "Dee") true 0)
    = Some [anonymous "Ann"].
Proof.
  intros secondPage. split; [by vm_compute|].
  assert (Hdata : ∀ r, r ∈ data anonymousProps → isNullish (getField r "id") = true).
  { intros r Hr. apply list_elem_of_In in Hr. simpl in Hr.
    destruct Hr as [<- | [<- | [<- | [<- | [<- | []]]]]]; reflexivity. }
  destruct (keyless_rows_select_by_position anonymousProps secondPage
              (anonymous "Dee") 0 "id" eq_refl Hdata eq_refl eq_refl eq_refl
              ltac:(lia)) as [_ Hemit].
  exact Hemit.
Defined.

(** * Properties of the input field *)

(** X12. Whenever the message line below the input is rendered, its id is
    the one the input names in [aria-describedby] (both absent when the
    field has no id), and it shows the error message if there is one and the
    helper text otherwise. *)
Theorem message_line_is_described (p : InputField.Props)
    (Hrendered : InputField.messageRendered p = true) :
  InputField.messageId p = InputField.ariaDescribedby p ∧
  (InputField.truthy (InputField.id p) = false → InputField.messageId p = None) ∧
  InputField.truthy (InputField.messageText p) = true ∧
  (InputField.truthy (InputField.errorMessage p) = true →
     InputField.messageText p = InputField.errorMessage p).
Proof.
  unfold InputField.messageRendered, InputField.messageId, InputField.ariaDescribedby,
    InputField.messageText, InputField.hasError in *.
  destruct (InputField.truthy (InputField.id p)),
           (InputField.truthy (InputField.errorMessage p)) eqn:Herr,
           (InputField.truthy (InputField.helperText p)) eqn:Hhelp,
           (InputField.invalid p); simpl in *; try discriminate; by split_and!.
Qed.

Lemma message_line_is_described_witness :
  InputField.messageId InputField.sampleWithMessage = Some "mail-error" ∧
  InputField.ariaDescribedby InputField.sampleWithMessage = Some "mail-error" ∧
  InputField.messageText InputField.sampleWithMessage = Some "Not an address".
Proof.
  destruct (message_line_is_described InputField.sampleWithMessage eq_refl)
    as (Hid & _ & _ & Htext).
  split_and!; [reflexivity | by rewrite <- Hid | by apply Htext].
Defined.

(** X13. The input names a message element that is not there in exactly
    one situation: the field has an id and is flagged [invalid] while
    neither an error message nor a helper text is given. *)
Theorem dangling_description (p : InputField.Props) :
  (InputField.ariaDescribedby p ≠ None ∧ InputField.messageRendered p = false) ↔
  (InputField.truthy (InputField.id p) = true ∧ InputField.invalid p = true ∧
   InputField.truthy (InputField.errorMessage p) = false ∧
   InputField.truthy (InputField.helperText p) = false).
Proof.
  unfold InputField.messageRendered, InputField.ariaDescribedby, InputField.hasError.
  destruct (InputField.truthy (InputField.id p)),
           (InputField.truthy (InputField.errorMessage p)),
           (InputField.truthy (InputField.helperText p)),
           (InputField.invalid p); simpl; split;
    try (by intros [? ?]); try (intros (? & ? & ? & ?); done); by split_and!.
Qed.

(** X14. Whenever a control is rendered at the right edge of the input
    (custom icon, spinner, clear button or password toggle) the input
    reserves the right padding of its size, after the left padding that is
    reserved exactly when there is a left icon. *)
Theorem right_controls_have_padding (p : InputField.Props)
    (Hcontrol : InputField.rightControls p ≠ []) :
  InputField.getPaddingClasses p
  = (if InputField.leftIcon p then InputField.leftPadding (InputField.size p) else "")
    +:+ InputField.rightPadding (InputField.size p).
Proof.
  unfold InputField.rightControls, InputField.getPaddingClasses,
    InputField.hasLeftIcon in *.
  destruct (InputField.isPassword p), (InputField.showClearButton p),
           (InputField.loading p), (InputField.rightIcon p); simpl in *;
    try reflexivity; by destruct Hcontrol.
Qed.

Lemma right_controls_have_padding_witness :
  InputField.getPaddingClasses InputField.secret = "pl-12 pr-12".
Proof.
  rewrite (right_controls_have_padding InputField.secret); [reflexivity|].
  discriminate.
Defined.

(** X15. While [loading] is set the spinner is the only control at the
    right edge and the input element is disabled: no clear button, no
    password toggle, no custom icon. *)
Theorem loading_shows_only_the_spinner (p : InputField.Props)
    (Hloading : InputField.loading p = true) :
  InputField.rightControls p = [InputField.Spinner] ∧
  InputField.inputDisabled p = true.
Proof.
  unfold InputField.rightControls, InputField.inputDisabled. rewrite Hloading.
  rewrite andb_false_r, orb_true_r. done.
Qed.

Lemma loading_shows_only_the_spinner_witness :
  InputField.rightControls InputField.secret = [InputField.Spinner].
Proof. apply (loading_shows_only_the_spinner InputField.secret eq_refl). Defined.

Lemma clear_button_offered (p : InputField.Props) :
  InputField.ClearButton ∈ InputField.rightControls p ↔
  InputField.loading p = false ∧ InputField.showClearButton p = true ∧
  InputField.value p ≠ "" ∧ InputField.disabled p = false.
Proof.
  unfold InputField.rightControls, InputField.hasValue. rewrite list_elem_of_In.
  case_bool_decide as Hval;
    destruct (InputField.rightIcon p), (InputField.loading p),
             (InputField.showClearButton p), (InputField.disabled p),
             (InputField.isPassword p); simpl;
    intuition (try discriminate; try congruence).
Qed.

(** X16. The clear button is offered only on an input that can be edited
    and is not empty.  With a parent that stores what [onChange] reports,
    pressing it empties the value, and the button is gone while every other
    control at the right edge stays. *)
Theorem clear_button_round_trip (p : InputField.Props)
    (Hclear : InputField.ClearButton ∈ InputField.rightControls p)
    (Hhandler : InputField.onChange p = true) :
  let cleared := InputField.controlledBy p (InputField.handleClear p) in
  InputField.inputDisabled p = false ∧
  InputField.value p ≠ "" ∧
  InputField.value cleared = "" ∧
  (InputField.ClearButton ∉ InputField.rightControls cleared) ∧
  (InputField.rightControls cleared
   = List.filter (fun c => negb (bool_decide (c = InputField.ClearButton)))
                 (InputField.rightControls p)).
Proof.
  intros cleared. subst cleared.
  pose proof (proj1 (clear_button_offered p) Hclear) as (Hload & Hshow & Hval & Hdis).
  unfold InputField.handleClear. rewrite Hhandler.
  split_and!.
  - unfold InputField.inputDisabled. by rewrite Hload, Hdis.
  - done.
  - reflexivity.
  - rewrite clear_button_offered. simpl. intros (_ & _ & Hne & _). done.
  - unfold InputField.rightControls, InputField.hasValue, InputField.isPassword.
    simpl. rewrite Hload, Hshow, Hdis.
    rewrite (bool_decide_eq_false_2 (InputField.value p = "")) by done.
    destruct (InputField.rightIcon p),
             (bool_decide (InputField.type p = InputField.password)); reflexivity.
Qed.

Lemma clear_button_round_trip_witness :
  InputField.value
    (InputField.controlledBy InputField.sample
       (InputField.handleClear InputField.sample)) = "" ∧
  InputField.rightControls
    (InputField.controlledBy InputField.sample
       (InputField.handleClear InputField.sample)) = [].
Proof.
  assert (Hclear : InputField.ClearButton ∈ InputField.rightControls InputField.sample).
  { apply list_elem_of_In. simpl. auto. }
  destruct (clear_button_round_trip InputField.sample Hclear eq_refl)
    as (_ & _ & Hvalue & _ & Hrest).
  split; [exact Hvalue | rewrite Hrest; reflexivity].
Defined.

(** X17. After the toggle has been pressed [n] times the value is shown as
    plain text exactly when the field is a text field anyway, or a password
    field with [n] odd; a field of any other type keeps its type. *)
Theorem password_is_shown_on_odd_toggles (p : InputField.Props) (n : nat) :
  let showPassword := Nat.iter n InputField.togglePasswordVisibility false in
  showPassword = Nat.odd n ∧
  (InputField.inputType p showPassword = InputField.text ↔
     InputField.type p = InputField.text ∨
     (InputField.type p = InputField.password ∧ Nat.odd n = true)) ∧
  (InputField.type p ≠ InputField.password →
     InputField.inputType p showPassword = InputField.type p).
Proof.
  intros showPassword.
  assert (Hshow : showPassword = Nat.odd n).
  { subst showPassword. induction n as [|n IH]; [done|].
    simpl Nat.iter. rewrite IH. unfold InputField.togglePasswordVisibility.
    by rewrite Nat.odd_succ, <- Nat.negb_odd. }
  rewrite Hshow. unfold InputField.inputType, InputField.isPassword.
  split_and!; [done | |].
  - case_bool_decide as Hpw; simpl.
    + rewrite Hpw. destruct (Nat.odd n); simpl;
        intuition (try discriminate; try congruence).
    + intuition congruence.
  - intros Hpw. by rewrite bool_decide_eq_false_2.
Qed.

(** * The sign-up form *)

Lemma handleChange_keeps_flags (field v : string) (f : SignupForm.Form) :
  flagsMatchValues f → flagsMatchValues (SignupForm.handleChange field v f).
Proof.
  intros [Hemail Hpassword].
  unfold flagsMatchValues, SignupForm.handleChange, SignupForm.valueOf in *.
  cbn [SignupForm.values SignupForm.errors].
  destruct (decide (field = "email")) as [->|Hne1].
  - rewrite (bool_decide_eq_true_2 ("email" = "email")) by done.
    rewrite ?(bool_decide_eq_false_2 ("email" = "password")) by discriminate.
    rewrite lookup_insert_eq, lookup_insert_ne by discriminate.
    cbn [SignupForm.email SignupForm.password default]. by split.
  - rewrite (bool_decide_eq_false_2 (field = "email")) by done.
    rewrite (lookup_insert_ne _ field "email") by done.
    destruct (decide (field = "password")) as [->|Hne2].
    + rewrite (bool_decide_eq_true_2 ("password" = "password")) by done.
      rewrite lookup_insert_eq.
      cbn [SignupForm.email SignupForm.password default]. by split.
    + rewrite (bool_decide_eq_false_2 (field = "password")) by done.
      rewrite lookup_insert_ne by done. by split.
Qed.

Lemma edit_keeps_flags (changes : list (string * string)) (f : SignupForm.Form) :
  flagsMatchValues f → flagsMatchValues (SignupForm.edit f changes).
Proof.
  revert f. induction changes as [|[field v] changes IH]; intros f Hf; [done|].
  unfold SignupForm.edit in *. simpl. by apply IH, handleChange_keeps_flags.
Qed.

(** X18. Whatever has been typed into the sign-up form, in whatever order,
    the "Create Account" button is enabled only when the name is not empty,
    the e-mail contains an [@] and the password has at least six
    characters. *)
Theorem submit_is_enabled_only_when_valid (changes : list (string * string))
    (Henabled : SignupForm.submitDisabled (SignupForm.edit SignupForm.initial changes)
                = false) :
  let form := SignupForm.edit SignupForm.initial changes in
  SignupForm.valueOf form "name" ≠ "" ∧
  isSubstring "@" (SignupForm.valueOf form "email") ∧
  (6 ≤ String.length (SignupForm.valueOf form "password"))%nat.
Proof.
  intros form. subst form.
  assert (Hflags : flagsMatchValues (SignupForm.edit SignupForm.initial changes)).
  { apply edit_keeps_flags. by split. }
  destruct Hflags as [Hemail Hpassword].
  unfold SignupForm.submitDisabled in Henabled.
  rewrite !orb_false_iff in Henabled.
  destruct Henabled as ((((Hname & Hmail) & Hpw) & Herr1) & Herr2).
  apply bool_decide_eq_false in Hname, Hmail, Hpw.
  rewrite Herr1 in Hemail. rewrite Herr2 in Hpassword.
  symmetry in Hemail, Hpassword. apply andb_false_iff in Hemail, Hpassword.
  assert (Hlen : ∀ t : string, t ≠ "" → (0 < String.length t)%nat).
  { intros [|c t] Ht; [done | simpl; lia]. }
  split_and!.
  - done.
  - destruct Hemail as [Hzero | Hat].
    + apply bool_decide_eq_false in Hzero. specialize (Hlen _ Hmail). lia.
    + apply negb_false_iff in Hat. by apply includes_spec.
  - destruct Hpassword as [Hzero | Hshort].
    + apply bool_decide_eq_false in Hzero. specialize (Hlen _ Hpw). lia.
    + apply bool_decide_eq_false in Hshort. lia.
Qed.

Lemma submit_is_enabled_only_when_valid_witness :
  let changes := [("password", "secret1"); ("email", "a"); ("name", "Al");
                  ("email", "a@b")] in
  SignupForm.valueOf (SignupForm.edit SignupForm.initial changes) "name" ≠ "" ∧
  isSubstring "@" (SignupForm.valueOf (SignupForm.edit SignupForm.initial changes) "email").
Proof.
  intros changes.
  destruct (submit_is_enabled_only_when_valid changes ltac:(by vm_compute))
    as (Hname & Hmail & _).
  split; [exact Hname | exact Hmail].
Defined.

(** * Keys shared by rows, and what a found row shows *)

(** X19. Identity keys are not checked for uniqueness: when two rows of
    the data carry the same value in the key field, checking one of them
    hands the callback both. *)
Theorem rows_sharing_a_key_are_selected_together (p : Props) (s : State) (a b : Row)
    (i j : nat) (index : Z) (field : string)
    (Hkey : rowKey p = RowKeyField field)
    (Ha : data p !! i = Some a) (Hb : data p !! j = Some b)
    (Hsame : getField a field = getField b field)
    (Hpresent : isNullish (getField a field) = false)
    (Hobserver : onRowSelect p = true) :
  ∃ emitted : list Row,
    snd (handleRowSelect p s a true index) = Some emitted ∧
    a ∈ emitted ∧ b ∈ emitted ∧
    getField b field ∈ selectedRows (fst (handleRowSelect p s a true index)).
Proof.
  assert (Hk : ∀ r idx, getField r field = getField a field →
                        getRowKey (rowKey p) r idx = getField a field).
  { intros r idx Hr. rewrite Hkey. simpl. unfold nullish. by rewrite Hr, Hpresent. }
  assert (Hsel : getField a field
                 ∈ selectedRows (fst (handleRowSelect p s a true index))).
  { simpl. rewrite (Hk a index) by done.
    apply elem_of_union. right. by apply elem_of_singleton. }
  eexists. split_and!.
  - unfold handleRowSelect, emit. rewrite Hobserver. reflexivity.
  - apply filterIdx_spec. exists i. split; [done|].
    apply bool_decide_eq_true. by rewrite Hk.
  - apply filterIdx_spec. exists j. split; [done|].
    apply bool_decide_eq_true. by rewrite Hk.
  - by rewrite <- Hsame.
Qed.

Lemma rows_sharing_a_key_are_selected_together_witness :
  snd (handleRowSelect
         {| data := [bob; person 1 "Bobby"]; columns := [nameColumn];
            onRowSelect := true; pageSize := None; rowKey := RowKeyField "id" |}
         initialState bob true 0)
  = Some [bob; person 1 "Bobby"].
Proof.
  destruct (rows_sharing_a_key_are_selected_together
              {| data := [bob; person 1 "Bobby"]; columns := [nameColumn];
                 onRowSelect := true; pageSize := None; rowKey := RowKeyField "id" |}
              initialState bob (person 1 "Bobby") 0 1 0 "id"
              eq_refl eq_refl eq_refl eq_refl eq_refl eq_refl)
    as (emitted & Hemit & _).
  rewrite Hemit. by vm_compute.
Defined.

(** X20. A row returned for a non-empty query has a column that matches;
    if that column has no renderer of its own and its cell is not null, the
    text shown in the cell contains the query, letter case aside. *)
Theorem found_rows_show_the_query (D : list Row) (columns : list Column) (q : string)
    (record : Row) (Hq : q ≠ "") (Hfound : record ∈ filteredData D columns q) :
  ∃ column : Column,
    column ∈ columns ∧
    cellMatches q record column = true ∧
    (render column = None →
     isNullish (getField record (dataIndex column)) = false →
     ∀ index, isSubstring (toLowerCase q)
                          (toLowerCase (cellText column record index))).
Proof.
  unfold filteredData in Hfound. rewrite bool_decide_eq_false_2 in Hfound by done.
  apply list_elem_of_In, filter_In in Hfound as [_ Hm].
  unfold rowMatches in Hm. apply existsb_exists in Hm as (column & Hin & Hcell).
  exists column. split_and!; [by apply list_elem_of_In | done |].
  intros Hrender Hvalue index. unfold cellText, nullish.
  rewrite Hrender, Hvalue. by apply includes_spec.
Qed.

Lemma found_rows_show_the_query_witness :
  ∃ column : Column,
    column ∈ [nameColumn] ∧ cellMatches "AM" amy column = true.
Proof.
  assert (Hfound : amy ∈ filteredData [bob; amy; cal] [nameColumn] "AM").
  { apply list_elem_of_In. vm_compute. auto. }
  destruct (found_rows_show_the_query [bob; amy; cal] [nameColumn] "AM" amy
              ltac:(discriminate) Hfound) as (column & Hin & Hcell & _).
  by exists column.
Defined.
